(** * agui-cli: transport, framing and message normalisation

    A shallow embedding of [src/agui_cli/client.py] (the WebSocket frame
    codec, the two transport drivers, the scheme dispatch of
    [AgUIClient.stream] and the message normaliser) and of
    [src/agui_cli/cli.py] (the command line), followed by the properties the
    specification states about them and by further properties of the code.

    Conventions.
    - A Python [bytes] object is a list of integers, each in [0, 256).
    - A Python [str] is a Rocq [string]; a character stands for the code
      point of the same number (text below U+0100).
    - Code that touches the network is written in a state-and-exception
      monad over a [world]: the bytes the peer is going to deliver, the
      faults the network is going to inject, the random bytes of
      [os.urandom], the log of socket events and the messages yielded so far.
    - Generators are run eagerly; the caller's early [close()] is the
      exception [GeneratorExit] delivered at a [yield]. *)

From Stdlib Require Import ZArith List String Ascii Bool Lia DecimalString.
Import ListNotations.
Open Scope string_scope.
Open Scope list_scope.
Open Scope Z_scope.

Infix "+++" := String.append (right associativity, at level 60).

(** ** Bytes and integers *)

Definition bytes := list Z.

Definition is_byte (b : Z) : Prop := 0 <= b < 256.
Definition is_bytes (bs : bytes) : Prop := Forall is_byte bs.

Definition len {A : Type} (l : list A) : Z := Z.of_nat (List.length l).

(** The [n] least significant bytes of [x], most significant first. *)
Fixpoint big_endian (n : nat) (x : Z) : bytes :=
  match n with
  | O => []
  | S k => big_endian k (Z.shiftr x 8) ++ [Z.land x 255]
  end.

(** [int.from_bytes(bs, "big")]. *)
Definition int_from_bytes (bs : bytes) : Z :=
  fold_left (fun acc b => acc * 256 + b) bs 0.

(** [bytes(b ^ mask_key[i % 4] for i, b in enumerate(payload))], the
    comprehension of client.py lines 148 and 181; [i] is the index of the
    first byte of [payload]. *)
Fixpoint xor_from (i : nat) (mask_key payload : bytes) : bytes :=
  match payload with
  | [] => []
  | b :: rest =>
      Z.lxor b (nth (i mod 4) mask_key 0) :: xor_from (S i) mask_key rest
  end.

Definition xor_mask (mask_key payload : bytes) : bytes :=
  xor_from 0 mask_key payload.

(** [pat in buf] on bytes. *)
Fixpoint starts_with (pat buf : bytes) : bool :=
  match pat, buf with
  | [], _ => true
  | _ :: _, [] => false
  | p :: ps, b :: bs => (p =? b) && starts_with ps bs
  end.

Fixpoint bytes_in (pat buf : bytes) : bool :=
  starts_with pat buf ||
  match buf with
  | [] => false
  | _ :: bs => bytes_in pat bs
  end.

(** ** Strings *)

Definition code (c : ascii) : Z := Z.of_N (N_of_ascii c).

Definition bytes_of_string (s : string) : bytes :=
  map code (list_ascii_of_string s).

(** [str.isspace] on one character below U+0100. *)
Definition isspace (c : ascii) : bool :=
  let n := code c in
  ((9 <=? n) && (n <=? 13)) || ((28 <=? n) && (n <=? 32))
  || (n =? 133) || (n =? 160).

Fixpoint lstrip (s : string) : string :=
  match s with
  | EmptyString => EmptyString
  | String c r => if isspace c then lstrip r else s
  end.

Fixpoint rstrip (s : string) : string :=
  match s with
  | EmptyString => EmptyString
  | String c r =>
      match rstrip r with
      | EmptyString => if isspace c then EmptyString else String c EmptyString
      | r' => String c r'
      end
  end.

(** [s.strip()]. *)
Definition strip (s : string) : string := rstrip (lstrip s).

(** [s.startswith(p)]. *)
Fixpoint startswith (p s : string) : bool :=
  match p with
  | EmptyString => true
  | String a p' =>
      match s with
      | EmptyString => false
      | String b s' => Ascii.eqb a b && startswith p' s'
      end
  end.

(** [s[n:]]. *)
Fixpoint drop (n : nat) (s : string) : string :=
  match n, s with
  | O, _ => s
  | S k, EmptyString => EmptyString
  | S k, String _ r => drop k r
  end.

(** [p in s] on strings. *)
Fixpoint str_in (p s : string) : bool :=
  startswith p s ||
  match s with
  | EmptyString => false
  | String _ r => str_in p r
  end.

(** [s.split(sep, 1)[0]]: the part of [s] before the first [sep]. *)
Fixpoint before (sep s : string) : string :=
  if startswith sep s then EmptyString
  else match s with
       | EmptyString => EmptyString
       | String c r => String c (before sep r)
       end.

Definition CRLF : string := String "013" (String "010" EmptyString).

(** [s] between double quotes. *)
Definition quoted (s : string) : string :=
  String "034" (s +++ String "034" "").

(** The document [{"text":"<word>"}] and the event-stream line carrying it. *)
Definition text_document (word : string) : string :=
  "{" +++ quoted "text" +++ ":" +++ quoted word +++ "}".

Definition sse_line (word : string) : string :=
  "data: " +++ text_document word.

(** Text made of whitespace only. *)
Fixpoint all_space (s : string) : bool :=
  match s with
  | EmptyString => true
  | String c r => isspace c && all_space r
  end.

(** Text that [strip] leaves as it is. *)
Definition tight (s : string) : Prop := lstrip s = s /\ rstrip s = s.

(** ** JSON values

    [JsonValue = Union[str, int, float, bool, None, dict, list]].  A [dict]
    keeps its insertion order, so it is an association list; [F] is the type
    of floats, which only the runtime below knows how to read and print. *)

Set Warnings "-register-all".

Inductive json (F : Type) : Type :=
| JNull
| JBool (b : bool)
| JInt (z : Z)
| JFloat (f : F)
| JString (s : string)
| JArray (items : list (json F))
| JObject (members : list (string * json F)).

Arguments JNull {F}.
Arguments JBool {F} b.
Arguments JInt {F} z.
Arguments JFloat {F} f.
Arguments JString {F} s.
Arguments JArray {F} items.
Arguments JObject {F} members.

(** [d.get(key)]: the value stored under [key], [None] when there is none. *)
Fixpoint dict_get {F : Type} (d : list (string * json F)) (key : string)
  : json F :=
  match d with
  | [] => JNull
  | (k, v) :: rest => if String.eqb k key then v else dict_get rest key
  end.

(** [key in d]. *)
Fixpoint dict_has {F : Type} (d : list (string * json F)) (key : string)
  : bool :=
  match d with
  | [] => false
  | (k, _) :: rest => String.eqb k key || dict_has rest key
  end.

(** What [json.loads] does with a document. *)
Inductive loads (V : Type) : Type :=
| Loaded (value : V)
| JSONDecodeError
| LoadsRaised.

Arguments Loaded {V} value.
Arguments JSONDecodeError {V}.
Arguments LoadsRaised {V}.

(** ** The Python runtime

    The library functions the client calls and does not define.  The
    development is parametric in them; [Fragment.runtime] below implements
    them for running the examples. *)

Class Python : Type := {
  (** [float], and [bool(x)] of a float *)
  pyfloat : Type;
  float_bool : pyfloat -> bool;
  (** [json.loads(text)]: a value, [JSONDecodeError], or another exception *)
  json_loads : string -> loads (json pyfloat);
  (** [json.dumps(value, ensure_ascii=flag)] *)
  json_dumps : bool -> json pyfloat -> string;
  (** [repr(value)] *)
  repr : json pyfloat -> string;
  (** [data.decode(errors="replace")] *)
  decode : bytes -> string;
  (** [text.encode()] *)
  encode : string -> bytes
}.

(** ** Exceptions and outcomes *)

Inductive exn : Type :=
| ValueError (msg : string)
| ConnectionError (msg : string)
| OSError (msg : string)
| OverflowError
| LibraryError
| GeneratorExit.

(** [Stuck] is the model running out of fuel; no Python run ends there. *)
Inductive outcome (A : Type) : Type :=
| Return (a : A)
| Raise (e : exn)
| Stuck.

Arguments Return {A} a.
Arguments Raise {A} e.
Arguments Stuck {A}.

(** [urlparse(self.server_url)], with the attributes the client reads. *)
Inductive port_attr : Type :=
| PortInvalid
| PortNone
| Port (p : Z).

Record ParseResult : Type := mkParseResult {
  scheme : string;
  hostname : option string;
  port : port_attr;
  path : string;
  query : string;
  geturl : string
}.

Inductive drain : Type := Eof | TimesOut.

Inductive event : Type :=
| EvConnect (host : string) (port : Z)
| EvTls (host : string)
| EvSend (data : bytes)
| EvClose
| EvUrlopen (url : string) (body : bytes)
| EvHttpClose.

Section Client.

Context {Py : Python}.

Definition value : Type := json pyfloat.

(** ** Messages *)

(** [class AgUIMessage]: [text: str], [raw: JsonValue]. *)
Record AgUIMessage : Type := mkMessage {
  text : string;
  raw : value
}.

(** ** The world *)

Record world : Type := mkWorld {
  (** whether [socket.create_connection] and [wrap_socket] succeed *)
  connect_ok : bool;
  tls_ok : bool;
  (** the bytes the peer delivers, and what [recv] meets after them *)
  inbound : bytes;
  after : drain;
  (** one [recv] hands over at most [S mtu] bytes *)
  mtu : nat;
  (** for each coming [sendall], whether it raises *)
  send_faults : list bool;
  (** the random source behind [os.urandom], and how much of it is used *)
  entropy : nat -> Z;
  drawn : nat;
  (** the body lines [urlopen] answers with; [None]: it raises *)
  http_lines : option (list bytes);
  (** socket and HTTP events so far, oldest first *)
  log : list event;
  (** messages handed to the caller so far, oldest first *)
  yielded : list AgUIMessage;
  (** how many messages the caller takes before it closes the generator;
      [None]: it takes them all *)
  demand : option nat
}.

Definition set_inbound (v : bytes) (w : world) : world :=
  mkWorld (connect_ok w) (tls_ok w) v (after w) (mtu w) (send_faults w)
          (entropy w) (drawn w) (http_lines w) (log w) (yielded w) (demand w).

Definition set_send_faults (v : list bool) (w : world) : world :=
  mkWorld (connect_ok w) (tls_ok w) (inbound w) (after w) (mtu w) v
          (entropy w) (drawn w) (http_lines w) (log w) (yielded w) (demand w).

Definition set_drawn (v : nat) (w : world) : world :=
  mkWorld (connect_ok w) (tls_ok w) (inbound w) (after w) (mtu w)
          (send_faults w) (entropy w) v (http_lines w) (log w) (yielded w)
          (demand w).

Definition log_event (e : event) (w : world) : world :=
  mkWorld (connect_ok w) (tls_ok w) (inbound w) (after w) (mtu w)
          (send_faults w) (entropy w) (drawn w) (http_lines w) (log w ++ [e])
          (yielded w) (demand w).

Definition push_message (m : AgUIMessage) (d : option nat) (w : world)
  : world :=
  mkWorld (connect_ok w) (tls_ok w) (inbound w) (after w) (mtu w)
          (send_faults w) (entropy w) (drawn w) (http_lines w) (log w)
          (yielded w ++ [m]) d.

(** ** The monad *)

Definition M (A : Type) : Type := world -> outcome A * world.

Definition ret {A : Type} (a : A) : M A := fun w => (Return a, w).

Definition raise {A : Type} (e : exn) : M A := fun w => (Raise e, w).

Definition stuck {A : Type} : M A := fun w => (Stuck, w).

Definition bind {A B : Type} (m : M A) (k : A -> M B) : M B :=
  fun w =>
    match m w with
    | (Return a, w') => k a w'
    | (Raise e, w') => (Raise e, w')
    | (Stuck, w') => (Stuck, w')
    end.

(** [try: body finally: cleanup]. *)
Definition try_finally {A : Type} (body : M A) (cleanup : M unit) : M A :=
  fun w =>
    match body w with
    | (Stuck, w') => (Stuck, w')
    | (r, w') =>
        match cleanup w' with
        | (Return _, w'') => (r, w'')
        | (Raise e, w'') => (Raise e, w'')
        | (Stuck, w'') => (Stuck, w'')
        end
    end.

Notation "x <- m ;; k" := (bind m (fun x => k))
  (at level 61, m at next level, right associativity).
Notation "m ;; k" := (bind m (fun _ => k))
  (at level 61, right associativity).

(** [yield m]: the caller receives [m]; if that was the last message it
    wanted, it closes the generator and [GeneratorExit] is raised here. *)
Definition yield (m : AgUIMessage) : M unit :=
  fun w =>
    match demand w with
    | None => (Return tt, push_message m None w)
    | Some (S (S n)) => (Return tt, push_message m (Some (S n)) w)
    | Some _ => (Raise GeneratorExit, push_message m (Some O) w)
    end.

(** ** The socket *)

Definition create_connection (host : string) (p : Z) : M unit :=
  fun w =>
    if connect_ok w then (Return tt, log_event (EvConnect host p) w)
    else (Raise (OSError "connect"), w).

Definition wrap_socket (host : string) : M unit :=
  fun w =>
    if tls_ok w then (Return tt, log_event (EvTls host) w)
    else (Raise (OSError "tls"), w).

Definition sendall (data : bytes) : M unit :=
  fun w =>
    match send_faults w with
    | true :: later => (Raise (OSError "send"), set_send_faults later w)
    | false :: later =>
        (Return tt, log_event (EvSend data) (set_send_faults later w))
    | [] => (Return tt, log_event (EvSend data) w)
    end.

(** The world once a [sendall] of [data] has gone through. *)
Definition after_send (data : bytes) (w : world) : world :=
  log_event (EvSend data) (set_send_faults (tl (send_faults w)) w).

(** [sock.recv(bufsize)]: some bytes, at most [bufsize]; nothing at end of
    stream; or the read times out. *)
Definition sock_recv (bufsize : Z) : M bytes :=
  fun w =>
    match inbound w with
    | [] =>
        match after w with
        | Eof => (Return [], w)
        | TimesOut => (Raise (OSError "timed out"), w)
        end
    | _ :: _ =>
        let n := Z.to_nat (Z.min bufsize (Z.of_nat (S (mtu w)))) in
        (Return (firstn n (inbound w)), set_inbound (skipn n (inbound w)) w)
    end.

Definition sock_close : M unit :=
  fun w => (Return tt, log_event EvClose w).

(** The next [n] bytes of the random source. *)
Definition random_bytes (n : nat) (w : world) : bytes :=
  map (fun i => entropy w (drawn w + i)%nat mod 256) (seq 0 n).

(** [os.urandom(n)]. *)
Definition urandom (n : nat) : M bytes :=
  fun w => (Return (random_bytes n w), set_drawn (drawn w + n)%nat w).

(** [x.to_bytes(n, "big")]. *)
Definition int_to_bytes (x : Z) (n : nat) : M bytes :=
  if (0 <=? x) && (x <? 256 ^ Z.of_nat n) then ret (big_endian n x)
  else raise OverflowError.

Definition lift {A : Type} (r : outcome A) : M A := fun w => (r, w).

(** ** Frame codec *)

Definition mask_bit (mask : bool) : Z := if mask then 0x80 else 0x00.

(** [_send_websocket_frame], lines 134-143: the first byte followed by the
    length field. *)
Definition frame_header (first_byte length : Z) (mask : bool) : M bytes :=
  let header := [first_byte] in
  if length <? 126 then
    ret (header ++ [Z.lor (mask_bit mask) length])
  else if length <? Z.shiftl 1 16 then
    ext <- int_to_bytes length 2 ;;
    ret ((header ++ [Z.lor (mask_bit mask) 126]) ++ ext)
  else
    ext <- int_to_bytes length 8 ;;
    ret ((header ++ [Z.lor (mask_bit mask) 127]) ++ ext).

Definition _send_websocket_frame (opcode : Z) (payload : bytes) (mask : bool)
  : M unit :=
  let first_byte := Z.lor 0x80 (Z.land opcode 0x0F) in
  let length := len payload in
  header <- frame_header first_byte length mask ;;
  if mask then
    mask_key <- urandom 4 ;;
    sendall ((header ++ mask_key) ++ xor_mask mask_key payload)
  else
    sendall (header ++ payload).

Definition _send_websocket_message (text : string) : M unit :=
  _send_websocket_frame 0x1 (encode text) true.

Fixpoint recv_exact_loop (fuel : nat) (nbytes : Z) (data : bytes) : M bytes :=
  match fuel with
  | O => stuck
  | S fuel' =>
      if len data <? nbytes then
        chunk <- sock_recv (nbytes - len data) ;;
        match chunk with
        | [] => raise (ConnectionError "Socket connection closed unexpectedly")
        | _ :: _ => recv_exact_loop fuel' nbytes (data ++ chunk)
        end
      else ret data
  end.

(** Every turn of the loop but the last takes a byte off [inbound]. *)
Definition _recv_exact (nbytes : Z) : M bytes :=
  fun w => recv_exact_loop (S (List.length (inbound w))) nbytes [] w.

(** [_recv_websocket_messages], lines 168-173: the payload length. *)
Definition recv_length (second : Z) : M Z :=
  let length := Z.land second 0x7F in
  if length =? 126 then
    ext <- _recv_exact 2 ;; ret (int_from_bytes ext)
  else if length =? 127 then
    ext <- _recv_exact 8 ;; ret (int_from_bytes ext)
  else ret length.

(** One turn of the loop of [_recv_websocket_messages], up to its [yield]. *)
Definition recv_frame : M (Z * bytes) :=
  header <- _recv_exact 2 ;;
  match header with
  | [first; second] =>
      let opcode := Z.land first 0x0F in
      let masked := negb (Z.land second 0x80 =? 0) in
      length <- recv_length second ;;
      mask_key <- (if masked then _recv_exact 4 else ret []) ;;
      payload <- (if length =? 0 then ret [] else _recv_exact length) ;;
      let payload :=
        if masked && negb (length =? 0) then xor_mask mask_key payload
        else payload in
      ret (opcode, payload)
  | _ => raise (ValueError "not enough values to unpack")
  end.

(** The three layouts of the length field, named as the specification
    names them, with the number of bytes each adds after the second header
    byte and the lengths each can carry. *)
Inductive length_encoding : Type := Len7 | Len16 | Len64.

Definition extension_bytes (e : length_encoding) : nat :=
  match e with
  | Len7 => 0
  | Len16 => 2
  | Len64 => 8
  end.

Definition can_represent (e : length_encoding) (length : Z) : Prop :=
  match e with
  | Len7 => 0 <= length < 126
  | Len16 => 0 <= length < 2 ^ 16
  | Len64 => 0 <= length < 2 ^ 64
  end.

(** The layout the decoder reads off the second header byte (lines 168-173). *)
Definition encoding_of (second : Z) : length_encoding :=
  let length := Z.land second 0x7F in
  if length =? 126 then Len16
  else if length =? 127 then Len64
  else Len7.

(** ** Handshake *)

Definition b64_alphabet : string :=
  "ABCDEFGHIJKLMNOPQRSTUVWXYZabcdefghijklmnopqrstuvwxyz0123456789+/".

Definition b64_char (i : Z) : ascii :=
  match String.get (Z.to_nat i) b64_alphabet with
  | Some c => c
  | None => "="%char
  end.

(** [base64.b64encode(data).decode()]. *)
Fixpoint b64encode (data : bytes) : string :=
  match data with
  | [] => ""
  | [a] =>
      String (b64_char (Z.shiftr a 2))
        (String (b64_char (Z.shiftl (Z.land a 3) 4)) "==")
  | [a; b] =>
      String (b64_char (Z.shiftr a 2))
        (String (b64_char (Z.lor (Z.shiftl (Z.land a 3) 4) (Z.shiftr b 4)))
           (String (b64_char (Z.shiftl (Z.land b 15) 2)) "="))
  | a :: b :: c :: rest =>
      String (b64_char (Z.shiftr a 2))
        (String (b64_char (Z.lor (Z.shiftl (Z.land a 3) 4) (Z.shiftr b 4)))
           (String (b64_char (Z.lor (Z.shiftl (Z.land b 15) 2) (Z.shiftr c 6)))
              (String (b64_char (Z.land c 63)) (b64encode rest))))
  end.

Definition CRLFCRLF : bytes := [13; 10; 13; 10].

Fixpoint read_headers_loop (fuel : nat) (buffer : bytes) : M bytes :=
  match fuel with
  | O => stuck
  | S fuel' =>
      if negb (bytes_in CRLFCRLF buffer) then
        chunk <- sock_recv 1 ;;
        match chunk with
        | [] => ret buffer
        | _ :: _ => read_headers_loop fuel' (buffer ++ chunk)
        end
      else ret buffer
  end.

Definition _read_http_response_headers : M string :=
  fun w =>
    (buffer <- read_headers_loop (S (List.length (inbound w))) [] ;;
     ret (decode buffer)) w.

(** ** Message normaliser *)

(** [bool(v)]. *)
Definition truthy (v : value) : bool :=
  match v with
  | JNull => false
  | JBool b => b
  | JInt z => negb (z =? 0)
  | JFloat f => float_bool f
  | JString s => negb (String.eqb s "")
  | JArray items => match items with [] => false | _ :: _ => true end
  | JObject members => match members with [] => false | _ :: _ => true end
  end.

(** [a or b]. *)
Definition py_or (a b : value) : value := if truthy a then a else b.

(** [str(v)], also what an f-string puts for [{v}]. *)
Definition str (v : value) : string :=
  match v with
  | JString s => s
  | _ => repr v
  end.

(** Lines 193-198. *)
Definition select_prefix (parsed : list (string * value)) : value :=
  py_or (py_or (py_or (dict_get parsed "user") (dict_get parsed "sender"))
               (dict_get parsed "name"))
        (dict_get parsed "role").

(** Lines 199-204. *)
Definition select_body (parsed : list (string * value)) : value :=
  py_or (py_or (py_or (dict_get parsed "message") (dict_get parsed "content"))
               (dict_get parsed "text"))
        (dict_get parsed "body").

(** Lines 205-208. *)
Definition render_body (parsed : list (string * value)) (body : value)
  : value :=
  match body with
  | JNull => JString (json_dumps false (JObject parsed))
  | JObject _ | JArray _ => JString (json_dumps false body)
  | _ => body
  end.

(** Lines 192-213: the message for a parsed document. *)
Definition normalize_value (parsed : value) : AgUIMessage :=
  match parsed with
  | JObject members =>
      let prefix := select_prefix members in
      let body := render_body members (select_body members) in
      let text :=
        if truthy prefix then str prefix +++ ": " +++ str body
        else str body in
      mkMessage text parsed
  | _ => mkMessage (str parsed) parsed
  end.

Definition _normalize_message (raw_text : string) : outcome AgUIMessage :=
  match json_loads raw_text with
  | JSONDecodeError => Return (mkMessage raw_text (JString raw_text))
  | LoadsRaised => Raise LibraryError
  | Loaded parsed => Return (normalize_value parsed)
  end.

(** ** HTTP driver *)

Definition question_payload (ensure_ascii : bool) (question : string)
  : string :=
  json_dumps ensure_ascii (JObject [("question", JString question)]).

Definition urlopen (url : string) (data : bytes) : M (list bytes) :=
  fun w =>
    match http_lines w with
    | None => (Raise (OSError "urlopen"), w)
    | Some lines => (Return lines, log_event (EvUrlopen url data) w)
    end.

Definition http_close : M unit :=
  fun w => (Return tt, log_event EvHttpClose w).

(** [for raw_line in resp: ...], lines 67-73. *)
Fixpoint http_loop (resp : list bytes) : M unit :=
  match resp with
  | [] =>
      fun w =>
        match after w with
        | Eof => (Return tt, w)
        | TimesOut => (Raise (OSError "timed out"), w)
        end
  | raw_line :: rest =>
      let line := strip (decode raw_line) in
      if String.eqb line "" then http_loop rest
      else
        let line :=
          if startswith "data:" line
          then strip (drop (String.length "data:") line)
          else line in
        m <- lift (_normalize_message line) ;;
        yield m ;;
        http_loop rest
  end.

Definition _stream_http (url question : string) : M unit :=
  let payload := encode (question_payload false question) in
  resp <- urlopen url payload ;;
  try_finally (http_loop resp) http_close.

(** ** WebSocket driver *)

(** The [for] loop of lines 104-112 over [_recv_websocket_messages]. *)
Fixpoint ws_loop (fuel : nat) : M unit :=
  match fuel with
  | O => stuck
  | S fuel' =>
      frame <- recv_frame ;;
      let '(opcode, payload) := frame in
      if opcode =? 0x1 then
        m <- lift (_normalize_message (decode payload)) ;;
        yield m ;;
        ws_loop fuel'
      else if opcode =? 0x8 then ret tt
      else if opcode =? 0x9 then
        _send_websocket_frame 0xA payload true ;;
        ws_loop fuel'
      else ws_loop fuel'
  end.

(** Every frame takes at least two bytes off [inbound]. *)
Definition ws_receive : M unit :=
  fun w => ws_loop (S (List.length (inbound w))) w.

Definition handshake_request (path host key : string) : string :=
  "GET " +++ path +++ " HTTP/1.1" +++ CRLF +++
  "Host: " +++ host +++ CRLF +++
  "Upgrade: websocket" +++ CRLF +++
  "Connection: Upgrade" +++ CRLF +++
  "Sec-WebSocket-Key: " +++ key +++ CRLF +++
  "Sec-WebSocket-Version: 13" +++ CRLF +++ CRLF.

Definition _stream_websocket (parsed : ParseResult) (question : string)
  : M unit :=
  let host := match hostname parsed with Some h => h | None => "" end in
  let default_port := if String.eqb (scheme parsed) "wss" then 443 else 80 in
  p <- match port parsed with
       | PortInvalid => raise (ValueError "Port could not be cast to integer")
       | PortNone => ret default_port
       | Port n => ret (if n =? 0 then default_port else n)
       end ;;
  let target := if String.eqb (path parsed) "" then "/" else path parsed in
  let target :=
    if String.eqb (query parsed) "" then target
    else target +++ "?" +++ query parsed in
  create_connection host p ;;
  (if String.eqb (scheme parsed) "wss" then wrap_socket host else ret tt) ;;
  seed <- urandom 16 ;;
  let key := b64encode seed in
  sendall (encode (handshake_request target host key)) ;;
  response_headers <- _read_http_response_headers ;;
  if negb (str_in "101" (before CRLF response_headers)) then
    sock_close ;;
    raise (ConnectionError "WebSocket upgrade failed")
  else
    _send_websocket_message (question_payload true question) ;;
    try_finally ws_receive sock_close.

(** ** Client facade *)

Definition stream (parsed : ParseResult) (question : string) : M unit :=
  if String.eqb (scheme parsed) "ws" || String.eqb (scheme parsed) "wss" then
    _stream_websocket parsed question
  else if String.eqb (scheme parsed) "http"
          || String.eqb (scheme parsed) "https" then
    _stream_http (geturl parsed) question
  else
    raise (ValueError ("Unsupported AG_UI_SERVER scheme: " +++ scheme parsed)).

(** ** Vocabulary of the statements *)

(** [reads w w']: between [w] and [w'] the program has only taken bytes off
    the front of [inbound]. *)
Definition reads (w w' : world) : Prop :=
  w' = set_inbound (inbound w') w
  /\ exists got : bytes, inbound w = got ++ inbound w'.

(** A computation that stops and only takes bytes off [inbound]. *)
Definition reading {A : Type} (m : M A) : Prop :=
  forall w : world,
    match m w with
    | (Stuck, _) => False
    | (_, w') => reads w w'
    end.

(** A computation that stops and leaves [inbound] alone. *)
Definition writing {A : Type} (m : M A) : Prop :=
  forall w : world,
    match m w with
    | (Stuck, _) => False
    | (_, w') => inbound w' = inbound w
    end.

(** Whether a value is a [dict] or a [list]. *)
Definition is_structured (v : value) : bool :=
  match v with
  | JObject _ | JArray _ => true
  | _ => false
  end.

Definition speaker_keys : list string := ["user"; "sender"; "name"; "role"].

Definition body_keys : list string := ["message"; "content"; "text"; "body"].

(** The selection as the specification words it: the value of the first of
    [keys] that is present with a non-null value, [None] when there is
    none. *)
Fixpoint first_non_null (keys : list string) (d : list (string * value))
  : value :=
  match keys with
  | [] => JNull
  | k :: later =>
      match dict_get d k with
      | JNull => first_non_null later d
      | v => v
      end
  end.

(** The value of the first of [keys] whose value is truthy. *)
Fixpoint first_truthy (keys : list string) (d : list (string * value))
  : option value :=
  match keys with
  | [] => None
  | k :: later =>
      if truthy (dict_get d k) then Some (dict_get d k)
      else first_truthy later d
  end.

(** Lines 76-80: the host, the port and the request target the WebSocket
    driver works out of the URL (the port for a URL whose port is valid). *)
Definition ws_host (parsed : ParseResult) : string :=
  match hostname parsed with
  | Some h => h
  | None => ""
  end.

Definition ws_port (parsed : ParseResult) : Z :=
  let default_port := if String.eqb (scheme parsed) "wss" then 443 else 80 in
  match port parsed with
  | Port n => if n =? 0 then default_port else n
  | _ => default_port
  end.

Definition ws_target (parsed : ParseResult) : string :=
  let target := if String.eqb (path parsed) "" then "/" else path parsed in
  if String.eqb (query parsed) "" then target
  else target +++ "?" +++ query parsed.

(** The events up to the handshake request, when nothing fails: the
    connection, the TLS wrapping for wss, the request with its random
    key. *)
Definition opening (parsed : ParseResult) (w : world) : list event :=
  EvConnect (ws_host parsed) (ws_port parsed)
  :: (if String.eqb (scheme parsed) "wss" then [EvTls (ws_host parsed)]
      else [])
  ++ [EvSend (encode (handshake_request (ws_target parsed) (ws_host parsed)
                        (b64encode (random_bytes 16 w))))].

(** The number of [sock.close()] calls in a log. *)
Fixpoint closes (l : list event) : nat :=
  match l with
  | [] => 0
  | EvClose :: later => S (closes later)
  | _ :: later => closes later
  end.

(** A computation that adds to the log events of kind [P] and nothing
    else. *)
Definition logs (P : list event -> Prop) {A : Type} (m : M A) : Prop :=
  forall w : world,
    exists more : list event, log (snd (m w)) = log w ++ more /\ P more.

Definition no_close (l : list event) : Prop := closes l = 0%nat.

Definition anything (l : list event) : Prop := True.

(** The lines of a response that are not blank. *)
Definition content_lines (resp : list bytes) : list bytes :=
  filter (fun raw_line => negb (all_space (decode raw_line))) resp.

End Client.

(** ** Command line (cli.py) *)

(** [SystemExit(arg)]: a message or a status. *)
Inductive exit_arg : Type :=
| ExitText (msg : string)
| ExitCode (n : Z).

(** How a function of cli.py ends: with a value, with [SystemExit], or with
    an exception nothing catches.  [NoResult] is the model out of fuel. *)
Inductive cli (A : Type) : Type :=
| Done (a : A)
| SystemExit (arg : exit_arg)
| Uncaught (e : exn)
| NoResult.

Arguments Done {A} a.
Arguments SystemExit {A} arg.
Arguments Uncaught {A} e.
Arguments NoResult {A}.

(** The terminal: the lines still to be typed, what was written to standard
    output, one entry per write, and the exceptions reported on standard
    error (each stands for the line [Error al conectar o recibir datos:]
    followed by [str(exc)]). *)
Record console : Type := mkConsole {
  stdin : list string;
  stdout : list string;
  stderr : list exn
}.

Definition newline : string := String "010" "".

(** [print(s)]. *)
Definition print (s : string) (c : console) : console :=
  mkConsole (stdin c) (stdout c ++ [s +++ newline]) (stderr c).

(** [print(..., file=sys.stderr)] of the diagnostic for [e]. *)
Definition report (e : exn) (c : console) : console :=
  mkConsole (stdin c) (stdout c) (stderr c ++ [e]).

(** [input(prompt)]: the prompt is written, a line is read; [None] is
    [EOFError]. *)
Definition input (prompt : string) (c : console) : option string * console :=
  match stdin c with
  | [] => (None, mkConsole [] (stdout c ++ [prompt]) (stderr c))
  | line :: later =>
      (Some line, mkConsole later (stdout c ++ [prompt]) (stderr c))
  end.

(** [a or b] on [Optional[str]]. *)
Definition str_or (a b : option string) : option string :=
  match a with
  | Some (String _ _) => a
  | _ => b
  end.

Definition no_server_message : string :=
  "AG_UI_SERVER is not set. Provide it via --server or environment variable.".

(** [resolve_server_url(explicit)]; [environ] is
    [os.environ.get("AG_UI_SERVER")]. *)
Definition resolve_server_url (explicit environ : option string) : cli string :=
  match str_or explicit environ with
  | Some (String c r) => Done (String c r)
  | _ => SystemExit (ExitText no_server_message)
  end.

(** The prompt and the message at end of input; the accented letters are
    written by their code points. *)
Definition question_prompt : string :=
  String "191" ("Qu" +++ String "233" (" te gustar" +++ String "237"
    "a preguntarle al agente? ")).

Definition no_question_message : string :=
  "No se proporcion" +++ String "243"
    " una pregunta para enviar al servidor.".

(** [prompt_question(default)]. *)
Definition prompt_question (default : option string) (c : console)
  : cli string * console :=
  match default with
  | Some (String a r) => (Done (String a r), c)
  | _ =>
      match input question_prompt c with
      | (Some line, c') => (Done line, c')
      | (None, c') => (SystemExit (ExitText no_question_message), c')
      end
  end.

(** [parser.parse_args(argv)]. *)
Record arguments : Type := mkArguments {
  arg_question : option string;
  arg_server : option string;
  arg_timeout : Z
}.

Section CommandLine.

Context {Py : Python}.

(** [urllib.parse.urlparse], which raises [ValueError] on some URLs. *)
Variable urlparse : string -> outcome ParseResult.

(** [AgUIClient(server_url, timeout).stream(question)]; the timeouts are the
    world's. *)
Definition client_stream (server_url question : string) : M unit :=
  match urlparse server_url with
  | Return parsed => stream parsed question
  | Raise e => raise e
  | Stuck => stuck
  end.

(** A generator nobody has taken a message from, with a caller that takes
    them all. *)
Definition fresh_generator (w : world) : world :=
  mkWorld (connect_ok w) (tls_ok w) (inbound w) (after w) (mtu w)
          (send_faults w) (entropy w) (drawn w) (http_lines w) (log w)
          [] None.

(** [main(argv)] from [parser.parse_args] on.  [KeyboardInterrupt], which
    only the user raises, is left out. *)
Definition main (args : arguments) (environ : option string)
  (w : world) (c : console) : cli unit * world * console :=
  match resolve_server_url (arg_server args) environ with
  | Done server_url =>
      match prompt_question (arg_question args) c with
      | (Done question, c1) =>
          let c2 :=
            print ("Conectando a " +++ server_url +++ "..." +++ newline) c1 in
          let '(o, w') :=
            client_stream server_url question (fresh_generator w) in
          let c3 := fold_left (fun k m => print (text m) k) (yielded w') c2 in
          match o with
          | Return _ => (Done tt, w', c3)
          | Raise GeneratorExit => (Uncaught GeneratorExit, w', c3)
          | Raise e => (SystemExit (ExitCode 1), w', report e c3)
          | Stuck => (NoResult, w', c3)
          end
      | (SystemExit arg, c1) => (SystemExit arg, w, c1)
      | (Uncaught e, c1) => (Uncaught e, w, c1)
      | (NoResult, c1) => (NoResult, w, c1)
      end
  | SystemExit arg => (SystemExit arg, w, c)
  | Uncaught e => (Uncaught e, w, c)
  | NoResult => (NoResult, w, c)
  end.

End CommandLine.

(** ** A runtime for the examples

    An implementation of [Python] on the fragment without floats: documents
    made of objects, arrays, strings with the one-letter escapes, integers
    and the three literals.  On a document with a float, [NaN], [Infinity]
    or a [\u] escape its [json_loads] answers [LoadsRaised]; so it does on
    an integer literal of more than 4300 digits, where CPython's [int]
    raises [ValueError], which is no [JSONDecodeError].  Everywhere else it
    follows CPython's [json], [repr] and UTF-8 codec on text below U+0100. *)

Module Fragment.

Definition jv : Type := json Empty_set.

Definition chr (n : Z) : ascii := ascii_of_N (Z.to_N n).

Definition hex_digit (n : Z) : ascii :=
  match String.get (Z.to_nat n) "0123456789abcdef" with
  | Some c => c
  | None => "0"%char
  end.

Definition hex2 (n : Z) : string :=
  String (hex_digit (Z.shiftr n 4)) (String (hex_digit (Z.land n 15)) "").

Definition decimal (z : Z) : string := NilZero.string_of_int (Z.to_int z).

Fixpoint concat_map (f : ascii -> string) (s : string) : string :=
  match s with
  | EmptyString => EmptyString
  | String c r => f c +++ concat_map f r
  end.

Fixpoint has_char (c : ascii) (s : string) : bool :=
  match s with
  | EmptyString => false
  | String d r => Ascii.eqb c d || has_char c r
  end.

(** *** UTF-8 *)

Fixpoint utf8_encode (s : string) : bytes :=
  match s with
  | EmptyString => []
  | String c r =>
      let n := code c in
      if n <? 128 then n :: utf8_encode r
      else Z.lor 0xC0 (Z.shiftr n 6) :: Z.lor 0x80 (Z.land n 63)
           :: utf8_encode r
  end.

(** A byte that does not decode to text below U+0100 shows as [?]. *)
Fixpoint utf8_decode (bs : bytes) : string :=
  match bs with
  | [] => EmptyString
  | b :: rest =>
      if (0 <=? b) && (b <? 128) then String (chr b) (utf8_decode rest)
      else
        match rest with
        | c :: rest' =>
            if ((b =? 0xC2) || (b =? 0xC3)) && (0x80 <=? c) && (c <? 0xC0)
            then String (chr (Z.lor (Z.shiftl (Z.land b 3) 6) (Z.land c 63)))
                        (utf8_decode rest')
            else String "?" (utf8_decode rest)
        | [] => "?"
        end
  end.

(** *** [json.dumps] *)

Definition json_escape (ensure_ascii : bool) (c : ascii) : string :=
  let n := code c in
  if n =? 34 then String "092" (String "034" "")
  else if n =? 92 then "\\"
  else if n =? 10 then "\n"
  else if n =? 13 then "\r"
  else if n =? 9 then "\t"
  else if n =? 8 then "\b"
  else if n =? 12 then "\f"
  else if (n <? 32) || (ensure_ascii && (126 <? n)) then "\u00" +++ hex2 n
  else String c "".

Definition json_quote (ensure_ascii : bool) (s : string) : string :=
  String "034" (concat_map (json_escape ensure_ascii) s +++ String "034" "").

Fixpoint dumps (ensure_ascii : bool) (v : jv) : string :=
  match v with
  | JNull => "null"
  | JBool true => "true"
  | JBool false => "false"
  | JInt z => decimal z
  | JFloat f => match f with end
  | JString s => json_quote ensure_ascii s
  | JArray items =>
      "[" +++
      (fix join (l : list jv) : string :=
         match l with
         | [] => ""
         | x :: r =>
             match r with
             | [] => dumps ensure_ascii x
             | _ :: _ => dumps ensure_ascii x +++ ", " +++ join r
             end
         end) items +++ "]"
  | JObject members =>
      "{" +++
      (fix join (l : list (string * jv)) : string :=
         match l with
         | [] => ""
         | (k, x) :: r =>
             let item :=
               json_quote ensure_ascii k +++ ": " +++ dumps ensure_ascii x in
             match r with
             | [] => item
             | _ :: _ => item +++ ", " +++ join r
             end
         end) members +++ "}"
  end.

(** *** [repr] *)

(** Characters [repr] writes as they are: the printable ones. *)
Definition printable (n : Z) : bool :=
  ((32 <=? n) && (n <? 127)) || ((161 <=? n) && negb (n =? 173)).

Definition repr_escape (quote : ascii) (c : ascii) : string :=
  let n := code c in
  if n =? 92 then "\\"
  else if Ascii.eqb c quote then String "092" (String quote "")
  else if n =? 9 then "\t"
  else if n =? 10 then "\n"
  else if n =? 13 then "\r"
  else if printable n then String c ""
  else "\x" +++ hex2 n.

Definition repr_str (s : string) : string :=
  let quote :=
    if has_char "039" s && negb (has_char "034" s) then "034"%char
    else "039"%char in
  String quote (concat_map (repr_escape quote) s +++ String quote "").

Fixpoint repr_value (v : jv) : string :=
  match v with
  | JNull => "None"
  | JBool true => "True"
  | JBool false => "False"
  | JInt z => decimal z
  | JFloat f => match f with end
  | JString s => repr_str s
  | JArray items =>
      "[" +++
      (fix join (l : list jv) : string :=
         match l with
         | [] => ""
         | x :: r =>
             match r with
             | [] => repr_value x
             | _ :: _ => repr_value x +++ ", " +++ join r
             end
         end) items +++ "]"
  | JObject members =>
      "{" +++
      (fix join (l : list (string * jv)) : string :=
         match l with
         | [] => ""
         | (k, x) :: r =>
             let item := repr_str k +++ ": " +++ repr_value x in
             match r with
             | [] => item
             | _ :: _ => item +++ ", " +++ join r
             end
         end) members +++ "}"
  end.

(** *** [json.loads] *)

Inductive parse (A : Type) : Type :=
| Parsed (a : A) (rest : string)
| Malformed
| Unsupported.

Arguments Parsed {A} a rest.
Arguments Malformed {A}.
Arguments Unsupported {A}.

Definition is_ws (c : ascii) : bool :=
  let n := code c in (n =? 32) || (n =? 9) || (n =? 10) || (n =? 13).

Definition is_digit (c : ascii) : bool :=
  let n := code c in (48 <=? n) && (n <=? 57).

Fixpoint skip_ws (s : string) : string :=
  match s with
  | String c r => if is_ws c then skip_ws r else s
  | EmptyString => EmptyString
  end.

(** [d[k] = v] on a dict built by the parser. *)
Fixpoint dict_set (d : list (string * jv)) (k : string) (v : jv)
  : list (string * jv) :=
  match d with
  | [] => [(k, v)]
  | (k', v') :: rest =>
      if String.eqb k' k then (k, v) :: rest
      else (k', v') :: dict_set rest k v
  end.

(** The characters of a string literal after its opening quote. *)
Fixpoint parse_chars (s : string) : parse string :=
  match s with
  | EmptyString => Malformed
  | String c r =>
      let n := code c in
      if n =? 34 then Parsed "" r
      else if n =? 92 then
        match r with
        | EmptyString => Malformed
        | String e r' =>
            let m := code e in
            let put (x : Z) :=
              match parse_chars r' with
              | Parsed t rest => Parsed (String (chr x) t) rest
              | other => other
              end in
            if (m =? 34) || (m =? 92) || (m =? 47) then put m
            else if m =? 98 then put 8
            else if m =? 102 then put 12
            else if m =? 110 then put 10
            else if m =? 114 then put 13
            else if m =? 116 then put 9
            else if m =? 117 then Unsupported
            else Malformed
        end
      else if n <? 32 then Malformed
      else
        match parse_chars r with
        | Parsed t rest => Parsed (String c t) rest
        | other => other
        end
  end.

Fixpoint take_digits (s : string) : string * string :=
  match s with
  | String c r =>
      if is_digit c then let '(d, rest) := take_digits r in (String c d, rest)
      else (EmptyString, s)
  | EmptyString => (EmptyString, EmptyString)
  end.

Definition digits_value (d : string) : Z :=
  fold_left (fun acc c => acc * 10 + (code c - 48)) (list_ascii_of_string d) 0.

Definition starts_digit (s : string) : bool :=
  match s with
  | String c _ => is_digit c
  | EmptyString => false
  end.

(** Whether a fraction or an exponent follows the integer part. *)
Definition float_follows (s : string) : bool :=
  match s with
  | String "." r => starts_digit r
  | String "e" r | String "E" r =>
      match r with
      | String "+" r' | String "-" r' => starts_digit r'
      | _ => starts_digit r
      end
  | _ => false
  end.

(** The digits of a number, its sign already read.  The integer is built
    as soon as its digits are read, before anything after them is looked
    at. *)
Definition parse_number (negative : bool) (s : string) : parse jv :=
  match s with
  | String c r =>
      if is_digit c then
        let '(d, rest) :=
          if code c =? 48 then (String c "", r) else take_digits s in
        if float_follows rest then Unsupported
        else if 4300 <? Z.of_nat (String.length d) then Unsupported
        else
          let n := digits_value d in
          Parsed (JInt (if negative then - n else n)) rest
      else Malformed
  | EmptyString => Malformed
  end.

(** The items of an array after the first: [, value]* followed by [\]]. *)
Fixpoint parse_items (item : string -> parse jv) (fuel : nat)
  (acc : list jv) (s : string) : parse (list jv) :=
  match fuel with
  | O => Unsupported
  | S fuel' =>
      match skip_ws s with
      | String "]" rest => Parsed acc rest
      | String "," rest =>
          match item (skip_ws rest) with
          | Parsed v rest' => parse_items item fuel' (acc ++ [v]) rest'
          | Malformed => Malformed
          | Unsupported => Unsupported
          end
      | _ => Malformed
      end
  end.

(** One [key: value] of an object. *)
Definition parse_member (item : string -> parse jv) (s : string)
  : parse (string * jv) :=
  match s with
  | String "034" r =>
      match parse_chars r with
      | Parsed k rest =>
          match skip_ws rest with
          | String ":" rest' =>
              match item (skip_ws rest') with
              | Parsed v rest'' => Parsed (k, v) rest''
              | Malformed => Malformed
              | Unsupported => Unsupported
              end
          | _ => Malformed
          end
      | Malformed => Malformed
      | Unsupported => Unsupported
      end
  | _ => Malformed
  end.

(** The members of an object after the first. *)
Fixpoint parse_members (item : string -> parse jv) (fuel : nat)
  (acc : list (string * jv)) (s : string) : parse (list (string * jv)) :=
  match fuel with
  | O => Unsupported
  | S fuel' =>
      match skip_ws s with
      | String "}" rest => Parsed acc rest
      | String "," rest =>
          match parse_member item (skip_ws rest) with
          | Parsed (k, v) rest' =>
              parse_members item fuel' (dict_set acc k v) rest'
          | Malformed => Malformed
          | Unsupported => Unsupported
          end
      | _ => Malformed
      end
  end.

Fixpoint parse_value (fuel : nat) (s : string) : parse jv :=
  match fuel with
  | O => Unsupported
  | S fuel' =>
      if startswith "null" s then Parsed JNull (drop 4 s)
      else if startswith "true" s then Parsed (JBool true) (drop 4 s)
      else if startswith "false" s then Parsed (JBool false) (drop 5 s)
      else if startswith "NaN" s || startswith "Infinity" s
              || startswith "-Infinity" s then Unsupported
      else
        match s with
        | String "034" r =>
            match parse_chars r with
            | Parsed t rest => Parsed (JString t) rest
            | Malformed => Malformed
            | Unsupported => Unsupported
            end
        | String "[" r =>
            match skip_ws r with
            | String "]" rest => Parsed (JArray []) rest
            | r' =>
                match parse_value fuel' r' with
                | Parsed v rest =>
                    match parse_items (parse_value fuel') fuel' [v] rest with
                    | Parsed items rest' => Parsed (JArray items) rest'
                    | Malformed => Malformed
                    | Unsupported => Unsupported
                    end
                | Malformed => Malformed
                | Unsupported => Unsupported
                end
            end
        | String "{" r =>
            match skip_ws r with
            | String "}" rest => Parsed (JObject []) rest
            | r' =>
                match parse_member (parse_value fuel') r' with
                | Parsed kv rest =>
                    match parse_members (parse_value fuel') fuel' [kv] rest with
                    | Parsed members rest' => Parsed (JObject members) rest'
                    | Malformed => Malformed
                    | Unsupported => Unsupported
                    end
                | Malformed => Malformed
                | Unsupported => Unsupported
                end
            end
        | String "-" r => parse_number true r
        | _ => parse_number false s
        end
  end.

Definition loads_text (s : string) : loads jv :=
  let s := skip_ws s in
  match parse_value (S (String.length s)) s with
  | Parsed v rest =>
      match skip_ws rest with
      | EmptyString => Loaded v
      | String _ _ => JSONDecodeError
      end
  | Malformed => JSONDecodeError
  | Unsupported => LoadsRaised
  end.

#[export] Instance runtime : Python := {
  pyfloat := Empty_set;
  float_bool := fun f => match f with end;
  json_loads := loads_text;
  json_dumps := dumps;
  repr := repr_value;
  decode := utf8_decode;
  encode := utf8_encode
}.

(** A world for the examples: the network is healthy, the peer delivers
    [data] one byte per [recv] and then closes, the caller takes every
    message. *)
Definition calm (data : bytes) : world :=
  mkWorld true true data Eof 0 [] (fun i => Z.of_nat (7 * i + 3)) 0 None
          [] [] None.

(** A WebSocket endpoint, a reply that accepts the upgrade and one that
    refuses it, and an HTTP response with the three lines of the
    specification's example. *)
Definition endpoint : ParseResult :=
  mkParseResult "ws" (Some "host") PortNone "/chat" "" "ws://host/chat".

Definition switching : bytes :=
  bytes_of_string ("HTTP/1.1 101 Switching Protocols" +++ CRLF +++ CRLF).

Definition refusal : bytes :=
  bytes_of_string ("HTTP/1.1 404 Not Found" +++ CRLF +++ CRLF).

Definition example_response : world :=
  mkWorld true true [] Eof 0 [] (fun _ => 0) 0
          (Some [bytes_of_string (sse_line "hello"); [];
                 bytes_of_string (sse_line "world")])
          [] [] None.


(** A caller that closes the generator after its first message. *)
Definition one_message (data : bytes) : world :=
  mkWorld true true data Eof 0 [] (fun _ => 0) 0 None [] [] (Some 1%nat).

(** An [urlparse] for the examples: whatever the URL, the endpoint given. *)
Definition parse_as (parsed : ParseResult) : string -> outcome ParseResult :=
  fun _ => Return parsed.

End Fragment.

(** * Properties *)

(** ** Bytes *)

Lemma lxor_cancel (b k : Z) : Z.lxor (Z.lxor b k) k = b.
Proof. now rewrite Z.lxor_assoc, Z.lxor_nilpotent, Z.lxor_0_r. Qed.

Lemma low_bits (x : Z) (n : Z) : 0 <= n -> 0 <= x < 2 ^ n -> Z.land x (Z.ones n) = x.
Proof. intros Hn Hx. rewrite Z.land_ones by assumption. now apply Z.mod_small. Qed.

Lemma high_bit_clear (a n : Z) : 0 <= a < 2 ^ 8 -> 8 <= n -> Z.testbit a n = false.
Proof.
  intros Ha Hn. rewrite <- (Z.mod_small a (2 ^ 8)) by assumption.
  apply Z.mod_pow2_bits_high. lia.
Qed.

Lemma lxor_byte (a b : Z) : is_byte a -> is_byte b -> is_byte (Z.lxor a b).
Proof.
  unfold is_byte. change 256 with (2 ^ 8). intros Ha Hb.
  assert (E : Z.lxor a b = Z.lxor a b mod 2 ^ 8).
  { rewrite <- Z.land_ones by lia. apply Z.bits_inj'. intros n Hn.
    rewrite Z.land_spec, Z.lxor_spec.
    destruct (Z.lt_ge_cases n 8) as [Hlow | Hhigh].
    - rewrite Z.ones_spec_low by lia. now rewrite andb_true_r.
    - rewrite !high_bit_clear by assumption. reflexivity. }
  rewrite E. apply Z.mod_pos_bound. lia.
Qed.

Lemma nth_byte (K : bytes) (i : nat) : is_bytes K -> is_byte (nth i K 0).
Proof.
  intros HK. destruct (Nat.lt_ge_cases i (List.length K)) as [Hi | Hi].
  - unfold is_bytes in HK. rewrite Forall_forall in HK. apply HK. now apply nth_In.
  - rewrite nth_overflow by assumption. unfold is_byte. lia.
Qed.

Lemma xor_from_involutive (K P : bytes) : forall i, xor_from i K (xor_from i K P) = P.
Proof.
  induction P as [| b P IH]; intros i; simpl.
  - reflexivity.
  - now rewrite lxor_cancel, IH.
Qed.

Lemma xor_from_length (K P : bytes) : forall i, List.length (xor_from i K P) = List.length P.
Proof. induction P as [| b P IH]; intros i; simpl; [reflexivity | now rewrite IH]. Qed.

Lemma xor_from_bytes (K P : bytes) : is_bytes K -> is_bytes P -> forall i, is_bytes (xor_from i K P).
Proof.
  intros HK HP. induction HP as [| b P Hb HP IH]; intros i; simpl.
  - constructor.
  - constructor; [apply lxor_byte; [assumption | now apply nth_byte] | apply IH].
Qed.

Lemma int_from_bytes_snoc (bs : bytes) (b : Z) :
  int_from_bytes (bs ++ [b]) = int_from_bytes bs * 256 + b.
Proof. unfold int_from_bytes. now rewrite fold_left_app. Qed.

Lemma big_endian_value (n : nat) : forall x, int_from_bytes (big_endian n x) = x mod 256 ^ Z.of_nat n.
Proof.
  induction n as [| n IH]; intros x.
  - simpl. now rewrite Z.mod_1_r.
  - cbn [big_endian]. rewrite int_from_bytes_snoc, IH.
    rewrite Z.shiftr_div_pow2 by lia.
    change 255 with (Z.ones 8). rewrite Z.land_ones by lia.
    rewrite Nat2Z.inj_succ, Z.pow_succ_r by lia.
    change (2 ^ 8) with 256.
    rewrite (Z.rem_mul_r x 256 (256 ^ Z.of_nat n)) by lia. lia.
Qed.

Lemma big_endian_length (n : nat) : forall x, List.length (big_endian n x) = n.
Proof.
  induction n as [| n IH]; intros x; simpl; [reflexivity |].
  rewrite length_app, IH. simpl. lia.
Qed.

(** ** Socket reads and the frame codec *)

Section Socket.

Context {Py : Python}.

Lemma set_inbound_same (w : world) : set_inbound (inbound w) w = w.
Proof. now destruct w. Qed.

Lemma firstn_then (A : Type) (a b : nat) (l : list A) :
  firstn a l ++ firstn b (skipn a l) = firstn (a + b) l.
Proof.
  revert l. induction a as [| a IH]; intros l; simpl.
  - reflexivity.
  - destruct l as [| x l]; simpl.
    + now rewrite firstn_nil.
    + now rewrite IH.
Qed.

Lemma skipn_then (A : Type) (a b : nat) (l : list A) :
  skipn b (skipn a l) = skipn (a + b) l.
Proof.
  revert l. induction a as [| a IH]; intros l; simpl.
  - reflexivity.
  - destruct l as [| x l]; simpl.
    + now rewrite skipn_nil.
    + apply IH.
Qed.

(** With enough bytes in flight the loop collects exactly the missing ones,
    whatever the size of the pieces [recv] hands over. *)
Lemma recv_exact_loop_enough (nbytes : Z) :
  forall (fuel : nat) (data : bytes) (w : world),
    (List.length (inbound w) < fuel)%nat ->
    len data <= nbytes ->
    nbytes - len data <= len (inbound w) ->
    recv_exact_loop fuel nbytes data w =
    (Return (data ++ firstn (Z.to_nat (nbytes - len data)) (inbound w)),
     set_inbound (skipn (Z.to_nat (nbytes - len data)) (inbound w)) w).
Proof.
  induction fuel as [| fuel IH]; intros data w Hfuel Hdata Havail; [lia |].
  cbn [recv_exact_loop].
  destruct (Z.ltb_spec (len data) nbytes) as [Hmore | Hdone].
  - unfold bind at 1. unfold sock_recv.
    destruct (inbound w) as [| b tail] eqn:Ein;
      [exfalso; unfold len in *; simpl in *; lia |].
    rewrite <- Ein in *.
    set (k := Z.to_nat (Z.min (nbytes - len data) (Z.of_nat (S (mtu w))))).
    assert (Hk : (1 <= k)%nat) by (unfold k; lia).
    assert (Hk' : (k <= Z.to_nat (nbytes - len data))%nat) by (unfold k; lia).
    assert (Hlen : (k <= List.length (inbound w))%nat) by (unfold len in *; lia).
    destruct (firstn k (inbound w)) as [| c chunk] eqn:Echunk.
    { apply (f_equal (@List.length Z)) in Echunk.
      rewrite length_firstn in Echunk. simpl in Echunk.
      rewrite Ein in Echunk. simpl in Echunk. lia. }
    rewrite <- Echunk.
    rewrite IH.
    + cbn [inbound set_inbound].
      assert (Elen : len (data ++ firstn k (inbound w)) = len data + Z.of_nat k).
      { unfold len. rewrite length_app, length_firstn. lia. }
      rewrite Elen.
      replace (Z.to_nat (nbytes - (len data + Z.of_nat k)))
        with (Z.to_nat (nbytes - len data) - k)%nat by lia.
      rewrite <- app_assoc, firstn_then, skipn_then.
      replace (k + (Z.to_nat (nbytes - len data) - k))%nat
        with (Z.to_nat (nbytes - len data)) by lia.
      reflexivity.
    + cbn [inbound set_inbound]. rewrite length_skipn. lia.
    + unfold len. rewrite length_app, length_firstn. unfold len in *. lia.
    + cbn [inbound set_inbound]. unfold len in *.
      rewrite length_app, length_firstn, length_skipn. lia.
  - replace (nbytes - len data) with 0 by lia. simpl.
    now rewrite app_nil_r, set_inbound_same.
Qed.

(** [_recv_exact(sock, n)] when the next [n] bytes are [data]. *)
Lemma recv_exact_prefix (data rest : bytes) (w : world) :
  inbound w = data ++ rest ->
  _recv_exact (len data) w = (Return data, set_inbound rest w).
Proof.
  intros Hin. unfold _recv_exact.
  assert (E : Z.to_nat (len data - len (@nil Z)) = List.length data)
    by (unfold len; simpl; lia).
  rewrite recv_exact_loop_enough.
  - rewrite E, Hin. simpl.
    rewrite firstn_app, skipn_app, Nat.sub_diag, firstn_all, skipn_all.
    simpl. now rewrite app_nil_r.
  - lia.
  - unfold len. simpl. lia.
  - rewrite Hin. unfold len. simpl. rewrite length_app. lia.
Qed.


Lemma sendall_ok (data : bytes) (w : world) :
  hd false (send_faults w) = false ->
  sendall data w = (Return tt, after_send data w).
Proof.
  unfold sendall, after_send. intros Hok.
  destruct (send_faults w) as [| [|] later] eqn:E; simpl in *;
    try discriminate; try reflexivity.
  f_equal. f_equal. destruct w; simpl in *. now subst.
Qed.

Lemma opcode_bits (opcode : Z) :
  Z.land (Z.lor 0x80 (Z.land opcode 0x0F)) 0x0F = Z.land opcode 0x0F.
Proof.
  rewrite Z.land_lor_distr_l, <- Z.land_assoc. reflexivity.
Qed.

Lemma second_byte_length (mask : bool) (c : Z) :
  0 <= c < 128 -> Z.land (Z.lor (mask_bit mask) c) 0x7F = c.
Proof.
  intros Hc. rewrite Z.land_lor_distr_l.
  change 0x7F with (Z.ones 7). rewrite (low_bits c 7) by (simpl; lia).
  now destruct mask.
Qed.

Lemma second_byte_mask (mask : bool) (c : Z) :
  0 <= c < 128 ->
  negb (Z.land (Z.lor (mask_bit mask) c) 0x80 =? 0) = mask.
Proof.
  intros Hc. rewrite Z.land_lor_distr_l.
  assert (E : Z.land c 0x80 = 0).
  { rewrite <- (low_bits c 7) by (simpl; lia).
    rewrite <- Z.land_assoc. simpl. apply Z.land_0_r. }
  rewrite E. now destruct mask.
Qed.

(** The length field the encoder writes for [length], and how the decoder
    reads it back. *)
Lemma frame_header_shape (first_byte length : Z) (mask : bool) (w : world) :
  0 <= length < 2 ^ 64 ->
  exists (c : Z) (ext : bytes),
    frame_header first_byte length mask w =
      (Return ([first_byte; Z.lor (mask_bit mask) c] ++ ext), w)
    /\ 0 <= c < 128
    /\ ((length < 126 /\ c = length /\ ext = [])
        \/ (126 <= length < 2 ^ 16 /\ c = 126 /\ ext = big_endian 2 length)
        \/ (2 ^ 16 <= length /\ c = 127 /\ ext = big_endian 8 length)).
Proof.
  intros Hlen. unfold frame_header.
  destruct (Z.ltb_spec length 126) as [H7 | H7].
  - exists length, []. repeat split; try lia. left. repeat split; lia.
  - change (Z.shiftl 1 16) with (2 ^ 16).
    destruct (Z.ltb_spec length (2 ^ 16)) as [H16 | H16].
    + exists 126, (big_endian 2 length). unfold bind, int_to_bytes.
      destruct (Z.leb_spec 0 length); [| lia].
      destruct (Z.ltb_spec length (256 ^ Z.of_nat 2)) as [_ | Hbad];
        [| change (256 ^ Z.of_nat 2) with (2 ^ 16) in Hbad; lia].
      repeat split; try lia. right. left. repeat split; lia.
    + exists 127, (big_endian 8 length). unfold bind, int_to_bytes.
      destruct (Z.leb_spec 0 length); [| lia].
      destruct (Z.ltb_spec length (256 ^ Z.of_nat 8)) as [_ | Hbad];
        [| change (256 ^ Z.of_nat 8) with (2 ^ 64) in Hbad; lia].
      repeat split; try lia. right. right. repeat split; lia.
Qed.

Lemma recv_length_reads (length c : Z) (ext rest : bytes) (mask : bool)
  (r : world) :
  0 <= length < 2 ^ 64 ->
  (length < 126 /\ c = length /\ ext = [])
  \/ (126 <= length < 2 ^ 16 /\ c = 126 /\ ext = big_endian 2 length)
  \/ (2 ^ 16 <= length /\ c = 127 /\ ext = big_endian 8 length) ->
  inbound r = ext ++ rest ->
  recv_length (Z.lor (mask_bit mask) c) r = (Return length, set_inbound rest r).
Proof.
  intros Hlen Hshape Hin. unfold recv_length.
  destruct Hshape as [(H7 & -> & ->) | [(H16 & -> & ->) | (H64 & -> & ->)]].
  - rewrite second_byte_length by lia.
    destruct (Z.eqb_spec length 126); [lia |].
    destruct (Z.eqb_spec length 127); [lia |].
    unfold ret. simpl in Hin. now rewrite <- Hin, set_inbound_same.
  - rewrite second_byte_length by lia. simpl.
    unfold bind.
    change 2 with (len (big_endian 2 length)) at 1.
    rewrite (recv_exact_prefix _ rest) by assumption.
    unfold ret. rewrite big_endian_value. f_equal. f_equal.
    apply Z.mod_small. change (256 ^ Z.of_nat 2) with (2 ^ 16). lia.
  - rewrite second_byte_length by lia. simpl.
    unfold bind.
    change 8 with (len (big_endian 8 length)) at 1.
    rewrite (recv_exact_prefix _ rest) by assumption.
    unfold ret. rewrite big_endian_value. f_equal. f_equal.
    apply Z.mod_small. change (256 ^ Z.of_nat 8) with (2 ^ 64). lia.
Qed.


Lemma bind_ok (A B : Type) (m : M A) (k : A -> M B) (w w' : world) (a : A) :
  m w = (Return a, w') -> bind m k w = k a w'.
Proof. intros E. unfold bind. now rewrite E. Qed.

Lemma set_inbound_twice (a b : bytes) (w : world) :
  set_inbound a (set_inbound b w) = set_inbound a w.
Proof. reflexivity. Qed.

Lemma urandom_run (n : nat) (w : world) :
  urandom n w = (Return (random_bytes n w), set_drawn (drawn w + n)%nat w).
Proof. reflexivity. Qed.

Lemma random_bytes_length (n : nat) (w : world) :
  List.length (random_bytes n w) = n.
Proof. unfold random_bytes. now rewrite length_map, length_seq. Qed.

Lemma random_bytes_range (n : nat) (w : world) : is_bytes (random_bytes n w).
Proof.
  unfold random_bytes, is_bytes. apply Forall_forall. intros b Hb.
  apply in_map_iff in Hb. destruct Hb as (i & <- & _).
  unfold is_byte. apply Z.mod_pos_bound. lia.
Qed.

(** What the decoder makes of a frame laid out as the encoder lays it out:
    two header bytes, the length extension, the key when masked, the
    payload. *)
Lemma recv_frame_reads (opcode length c : Z) (mask : bool)
  (ext key payload rest : bytes) (r : world) :
  0 <= length < 2 ^ 64 ->
  0 <= c < 128 ->
  (length < 126 /\ c = length /\ ext = [])
  \/ (126 <= length < 2 ^ 16 /\ c = 126 /\ ext = big_endian 2 length)
  \/ (2 ^ 16 <= length /\ c = 127 /\ ext = big_endian 8 length) ->
  len payload = length ->
  (if mask then List.length key = 4%nat else key = []) ->
  inbound r =
    [Z.lor 0x80 (Z.land opcode 0x0F); Z.lor (mask_bit mask) c]
      ++ ext ++ key ++ (if mask then xor_mask key payload else payload)
      ++ rest ->
  recv_frame r = (Return (Z.land opcode 0x0F, payload), set_inbound rest r).
Proof.
  intros Hlen Hc Hshape Hpayload Hkey Hin. unfold recv_frame.
  set (first := Z.lor 0x80 (Z.land opcode 0x0F)) in *.
  set (second := Z.lor (mask_bit mask) c) in *.
  rewrite (bind_ok _ _ _ _ _ _ _ (recv_exact_prefix [first; second] _ r Hin)).
  unfold first at 1. rewrite opcode_bits.
  subst second. rewrite !second_byte_mask by assumption.
  erewrite bind_ok; cycle 1.
  { eapply recv_length_reads; [exact Hlen | exact Hshape | reflexivity]. }
  rewrite set_inbound_twice.
  destruct mask.
  - erewrite bind_ok; cycle 1.
    { replace 4 with (len key) by (unfold len; rewrite Hkey; reflexivity).
      apply recv_exact_prefix. reflexivity. }
    rewrite set_inbound_twice.
    destruct (Z.eqb_spec length 0) as [Hzero | Hpos].
    + destruct payload; [| unfold len in Hpayload; simpl in Hpayload; lia].
      reflexivity.
    + erewrite bind_ok; cycle 1.
      { rewrite <- Hpayload.
        replace (len payload) with (len (xor_mask key payload))
          by (unfold len, xor_mask; now rewrite xor_from_length).
        apply recv_exact_prefix. reflexivity. }
      rewrite set_inbound_twice. simpl.
      unfold ret, xor_mask. now rewrite xor_from_involutive.
  - subst key. simpl app.
    erewrite bind_ok; [| reflexivity].
    destruct (Z.eqb_spec length 0) as [Hzero | Hpos].
    + destruct payload; [| unfold len in Hpayload; simpl in Hpayload; lia].
      reflexivity.
    + erewrite bind_ok; cycle 1.
      { rewrite <- Hpayload. apply recv_exact_prefix. reflexivity. }
      rewrite set_inbound_twice. reflexivity.
Qed.

(** A frame as [_send_websocket_frame] sends it, and the decoder on it. *)
Lemma send_frame_wire (opcode : Z) (payload : bytes) (mask : bool) (w : world) :
  len payload < 2 ^ 64 ->
  hd false (send_faults w) = false ->
  exists frame : bytes,
    _send_websocket_frame opcode payload mask w =
      (Return tt,
       after_send frame
         (if mask then set_drawn (drawn w + 4)%nat w else w))
    /\ forall (r : world) (rest : bytes),
         inbound r = frame ++ rest ->
         recv_frame r =
           (Return (Z.land opcode 0x0F, payload), set_inbound rest r).
Proof.
  intros Hlen Hsend. unfold _send_websocket_frame.
  assert (Hrange : 0 <= len payload < 2 ^ 64) by (unfold len in *; lia).
  destruct (frame_header_shape (Z.lor 0x80 (Z.land opcode 0x0F))
              (len payload) mask w Hrange) as (c & ext & Hhdr & Hc & Hshape).
  rewrite (bind_ok _ _ _ _ _ _ _ Hhdr).
  destruct mask.
  - rewrite (bind_ok _ _ _ _ _ _ _ (urandom_run 4 w)).
    eexists. split.
    + apply sendall_ok. exact Hsend.
    + intros r rest Hin.
      apply (recv_frame_reads opcode (len payload) c true ext
               (random_bytes 4 w) payload rest r);
        [exact Hrange | exact Hc | exact Hshape | reflexivity
        | apply random_bytes_length |].
      rewrite Hin. simpl. now rewrite <- !app_assoc.
  - eexists. split.
    + apply sendall_ok. exact Hsend.
    + intros r rest Hin.
      apply (recv_frame_reads opcode (len payload) c false ext
               [] payload rest r);
        [exact Hrange | exact Hc | exact Hshape | reflexivity
        | reflexivity |].
      rewrite Hin. simpl. now rewrite <- !app_assoc.
Qed.

End Socket.

(** ** What the receive path touches *)

Section Footprint.

Context {Py : Python}.

Lemma reads_refl (w : world) : reads w w.
Proof. split; [now rewrite set_inbound_same | now exists []]. Qed.

Lemma reads_trans (a b c : world) : reads a b -> reads b c -> reads a c.
Proof.
  intros [Eb [g1 H1]] [Ec [g2 H2]]. split.
  - rewrite Ec at 1. rewrite Eb. reflexivity.
  - exists (g1 ++ g2). rewrite H1, H2. now rewrite app_assoc.
Qed.

Lemma reads_length (w w' : world) :
  reads w w' -> (List.length (inbound w') <= List.length (inbound w))%nat.
Proof. intros [_ [g H]]. rewrite H, length_app. lia. Qed.

Lemma sock_recv_footprint (bufsize : Z) (w : world) :
  match sock_recv bufsize w with
  | (Return chunk, w') =>
      w' = set_inbound (inbound w') w /\ inbound w = chunk ++ inbound w'
      /\ (1 <= bufsize -> chunk = [] -> inbound w = [])
      /\ (0 <= bufsize -> len chunk <= bufsize)
  | (Raise _, w') => w' = w
  | (Stuck, _) => False
  end.
Proof.
  unfold sock_recv. destruct (inbound w) as [| b tail] eqn:Ein.
  - destruct (after w); [| reflexivity].
    rewrite Ein. repeat split; [now rewrite <- Ein, set_inbound_same |].
    intros Hbuf. exact Hbuf.
  - rewrite <- Ein. cbn [inbound set_inbound]. repeat split.
    + now rewrite firstn_skipn.
    + intros Hbuf Hchunk.
      apply (f_equal (@List.length Z)) in Hchunk.
      rewrite length_firstn, Ein in Hchunk. simpl in Hchunk. lia.
    + intros Hbuf. unfold len. rewrite length_firstn. lia.
Qed.

(** The loop of [_recv_exact] stops, with the bytes asked for or with an
    exception, and touches nothing but [inbound]. *)
Lemma recv_exact_loop_footprint (nbytes : Z) :
  forall (fuel : nat) (data : bytes) (w : world),
    (List.length (inbound w) < fuel)%nat ->
    match recv_exact_loop fuel nbytes data w with
    | (Return d, w') =>
        w' = set_inbound (inbound w') w
        /\ (exists got, d = data ++ got /\ inbound w = got ++ inbound w')
        /\ (len data <= nbytes -> len d = nbytes)
    | (Raise _, w') => reads w w'
    | (Stuck, _) => False
    end.
Proof.
  induction fuel as [| fuel IH]; intros data w Hfuel; [lia |].
  cbn [recv_exact_loop].
  destruct (Z.ltb_spec (len data) nbytes) as [Hmore | Hdone].
  - unfold bind at 1.
    pose proof (sock_recv_footprint (nbytes - len data) w) as Hrecv.
    destruct (sock_recv (nbytes - len data) w) as [[chunk | e |] w1];
      [| subst w1; apply reads_refl | contradiction].
    destruct Hrecv as (Ew1 & Hin & Hempty & Hbound).
    destruct chunk as [| c chunk].
    + unfold raise. split; [exact Ew1 | now exists []].
    + assert (Hshort : (List.length (inbound w1) < fuel)%nat).
      { rewrite Hin in Hfuel. simpl in Hfuel. rewrite length_app in Hfuel. lia. }
      specialize (IH (data ++ c :: chunk) w1 Hshort).
      destruct (recv_exact_loop fuel nbytes (data ++ c :: chunk) w1)
        as [[d | e |] w2]; [| | contradiction].
      * destruct IH as (Ew2 & (got & Hd & Hgot) & Hlen).
        split; [rewrite Ew2 at 1; rewrite Ew1; reflexivity |].
        split.
        -- exists ((c :: chunk) ++ got). rewrite Hd, Hin, Hgot.
           now rewrite <- !app_assoc.
        -- intros _. apply Hlen.
           specialize (Hbound ltac:(lia)). unfold len in *.
           rewrite length_app. lia.
      * eapply reads_trans; [| exact IH]. split; [exact Ew1 | eauto].
  - unfold ret. split; [now rewrite set_inbound_same |]. split.
    + exists []. now rewrite app_nil_r.
    + lia.
Qed.


Lemma recv_exact_footprint (nbytes : Z) (w : world) :
  match _recv_exact nbytes w with
  | (Return d, w') =>
      reads w w' /\ inbound w = d ++ inbound w' /\ (0 <= nbytes -> len d = nbytes)
  | (Raise _, w') => reads w w'
  | (Stuck, _) => False
  end.
Proof.
  unfold _recv_exact.
  pose proof (recv_exact_loop_footprint nbytes
                (S (List.length (inbound w))) [] w (Nat.lt_succ_diag_r _)) as H.
  destruct (recv_exact_loop _ nbytes [] w) as [[d | e |] w']; auto.
  destruct H as (Ew & (got & -> & Hin) & Hlen). simpl.
  split; [split; [exact Ew | eauto] |]. split; [exact Hin | exact Hlen].
Qed.

Lemma reading_ret (A : Type) (a : A) : reading (ret a).
Proof. intros w. apply reads_refl. Qed.

Lemma reading_raise (A : Type) (e : exn) : reading (@raise _ A e).
Proof. intros w. apply reads_refl. Qed.

Lemma reading_bind (A B : Type) (m : M A) (k : A -> M B) :
  reading m -> (forall a, reading (k a)) -> reading (bind m k).
Proof.
  intros Hm Hk w. unfold bind. specialize (Hm w).
  destruct (m w) as [[a | e |] w1]; auto.
  specialize (Hk a w1). destruct (k a w1) as [[b | e |] w2]; auto;
    eapply reads_trans; eauto.
Qed.

Lemma reading_recv_exact (nbytes : Z) : reading (_recv_exact nbytes).
Proof.
  intros w. pose proof (recv_exact_footprint nbytes w) as H.
  destruct (_recv_exact nbytes w) as [[d | e |] w']; auto. apply H.
Qed.

Lemma reading_recv_length (second : Z) : reading (recv_length second).
Proof.
  unfold recv_length.
  destruct (_ =? 126); [| destruct (_ =? 127)];
    try (apply reading_bind; [apply reading_recv_exact | intros; apply reading_ret]).
  apply reading_ret.
Qed.

Lemma reading_recv_frame : reading recv_frame.
Proof.
  unfold recv_frame. apply reading_bind; [apply reading_recv_exact |].
  intros [| first [| second [| ? ?]]]; try apply reading_raise.
  apply reading_bind; [apply reading_recv_length | intros length].
  apply reading_bind.
  { destruct (negb _); [apply reading_recv_exact | apply reading_ret]. }
  intros key. apply reading_bind; [| intros; apply reading_ret].
  destruct (length =? 0); [apply reading_ret | apply reading_recv_exact].
Qed.

(** A frame is at least its two header bytes. *)
Lemma recv_frame_consumes (w w' : world) (frame : Z * bytes) :
  recv_frame w = (Return frame, w') ->
  reads w w' /\ (List.length (inbound w') + 2 <= List.length (inbound w))%nat.
Proof.
  intros Hrun. split.
  { pose proof (reading_recv_frame w) as H. now rewrite Hrun in H. }
  revert Hrun. unfold recv_frame. unfold bind at 1.
  pose proof (recv_exact_footprint 2 w) as H2.
  destruct (_recv_exact 2 w) as [[d | e |] w1]; try discriminate.
  destruct H2 as (_ & Hin & Hlen). specialize (Hlen ltac:(lia)).
  destruct d as [| first [| second [| ? ?]]]; try discriminate.
  match goal with |- ?m w1 = _ -> _ => assert (Hrest : reading m) end.
  { apply reading_bind; [apply reading_recv_length | intros length].
    apply reading_bind.
    { destruct (negb _); [apply reading_recv_exact | apply reading_ret]. }
    intros key. apply reading_bind; [| intros; apply reading_ret].
    destruct (length =? 0); [apply reading_ret | apply reading_recv_exact]. }
  intros Hrun. specialize (Hrest w1). rewrite Hrun in Hrest.
  apply reads_length in Hrest. rewrite Hin. simpl. lia.
Qed.


Lemma writing_ret (A : Type) (a : A) : writing (ret a).
Proof. intros w. reflexivity. Qed.

Lemma writing_raise (A : Type) (e : exn) : writing (@raise _ A e).
Proof. intros w. reflexivity. Qed.

Lemma writing_bind (A B : Type) (m : M A) (k : A -> M B) :
  writing m -> (forall a, writing (k a)) -> writing (bind m k).
Proof.
  intros Hm Hk w. unfold bind. specialize (Hm w).
  destruct (m w) as [[a | e |] w1]; auto.
  specialize (Hk a w1). destruct (k a w1) as [[b | e |] w2]; auto; congruence.
Qed.

Lemma writing_lift (A : Type) (r : outcome A) :
  r <> Stuck -> writing (lift r).
Proof. intros Hr w. unfold lift. destruct r; auto. Qed.

Lemma writing_yield (m : AgUIMessage) : writing (yield m).
Proof.
  intros w. unfold yield. destruct (demand w) as [[| [| n]] |]; reflexivity.
Qed.

Lemma writing_sendall (data : bytes) : writing (sendall data).
Proof.
  intros w. unfold sendall. destruct (send_faults w) as [| [|] later]; reflexivity.
Qed.

Lemma writing_urandom (n : nat) : writing (urandom n).
Proof. intros w. reflexivity. Qed.

Lemma writing_int_to_bytes (x : Z) (n : nat) : writing (int_to_bytes x n).
Proof.
  unfold int_to_bytes. destruct (_ && _); [apply writing_ret | apply writing_raise].
Qed.

Lemma writing_frame_header (first_byte length : Z) (mask : bool) :
  writing (frame_header first_byte length mask).
Proof.
  unfold frame_header.
  destruct (length <? 126); [apply writing_ret |].
  destruct (length <? _);
    (apply writing_bind; [apply writing_int_to_bytes | intros; apply writing_ret]).
Qed.

Lemma writing_send_frame (opcode : Z) (payload : bytes) (mask : bool) :
  writing (_send_websocket_frame opcode payload mask).
Proof.
  unfold _send_websocket_frame.
  apply writing_bind; [apply writing_frame_header | intros header].
  destruct mask; [| apply writing_sendall].
  apply writing_bind; [apply writing_urandom | intros; apply writing_sendall].
Qed.

Lemma normalize_not_stuck (raw_text : string) :
  _normalize_message raw_text <> Stuck.
Proof.
  unfold _normalize_message.
  destruct (json_loads raw_text) as [[] | |]; discriminate.
Qed.

Lemma bind_ext (A B : Type) (m : M A) (k1 k2 : A -> M B) (w : world) :
  (forall a w', m w = (Return a, w') -> k1 a w' = k2 a w') ->
  bind m k1 w = bind m k2 w.
Proof.
  intros H. unfold bind. destruct (m w) as [[a | e |] w1]; auto.
Qed.

Lemma writing_run (A : Type) (m : M A) (w w' : world) (o : outcome A) :
  writing m -> m w = (o, w') -> o <> Stuck /\ inbound w' = inbound w.
Proof.
  intros Hm Hrun. specialize (Hm w). rewrite Hrun in Hm.
  destruct o; [split; [discriminate | exact Hm] ..| contradiction].
Qed.

(** Fuel beyond the bytes in flight changes nothing. *)
Lemma ws_loop_fuel :
  forall (f1 f2 : nat) (w : world),
    (List.length (inbound w) < f1)%nat ->
    (List.length (inbound w) < f2)%nat ->
    ws_loop f1 w = ws_loop f2 w.
Proof.
  induction f1 as [| f1 IH]; intros f2 w H1 H2; [lia |].
  destruct f2 as [| f2]; [lia |].
  cbn [ws_loop]. apply bind_ext. intros [opcode payload] w1 Hrecv.
  apply recv_frame_consumes in Hrecv. destruct Hrecv as [_ Hshort].
  destruct (opcode =? 1).
  { apply bind_ext. intros m w2 Hm.
    apply (writing_run _ _ _ _ _ (writing_lift _ _ (normalize_not_stuck _)))
      in Hm as [_ E2].
    apply bind_ext. intros [] w3 Hy.
    apply (writing_run _ _ _ _ _ (writing_yield m)) in Hy as [_ E3].
    apply IH; rewrite E3, E2; lia. }
  destruct (opcode =? 8); [reflexivity |].
  destruct (opcode =? 9); [| apply IH; lia].
  apply bind_ext. intros [] w2 Hs.
  apply (writing_run _ _ _ _ _ (writing_send_frame _ _ _)) in Hs as [_ E2].
  apply IH; rewrite E2; lia.
Qed.

Lemma bind_total (A B : Type) (m : M A) (k : A -> M B) (w : world) :
  fst (m w) <> Stuck ->
  (forall a w', m w = (Return a, w') -> fst (k a w') <> Stuck) ->
  fst (bind m k w) <> Stuck.
Proof.
  intros Hm Hk. unfold bind. destruct (m w) as [[a | e |] w1]; simpl in *;
    auto; discriminate.
Qed.

(** The receive loop never runs out of fuel. *)
Lemma ws_loop_total :
  forall (fuel : nat) (w : world),
    (List.length (inbound w) < fuel)%nat -> fst (ws_loop fuel w) <> Stuck.
Proof.
  induction fuel as [| fuel IH]; intros w Hfuel; [lia |].
  cbn [ws_loop]. apply bind_total.
  { pose proof (reading_recv_frame w) as H.
    destruct (recv_frame w) as [[] w']; simpl; auto; discriminate. }
  intros [opcode payload] w1 Hrecv.
  apply recv_frame_consumes in Hrecv. destruct Hrecv as [_ Hshort].
  destruct (opcode =? 1).
  { apply bind_total.
    { unfold lift. simpl. apply normalize_not_stuck. }
    intros m w2 Hm.
    apply (writing_run _ _ _ _ _ (writing_lift _ _ (normalize_not_stuck _)))
      in Hm as [_ E2].
    apply bind_total.
    { pose proof (writing_yield m w2) as H.
      destruct (yield m w2) as [[] w']; simpl; auto; discriminate. }
    intros [] w3 Hy.
    apply (writing_run _ _ _ _ _ (writing_yield m)) in Hy as [_ E3].
    apply IH; rewrite E3, E2; lia. }
  destruct (opcode =? 8); [simpl; discriminate |].
  destruct (opcode =? 9); [| apply IH; lia].
  apply bind_total.
  { pose proof (writing_send_frame 10 payload true w1) as H.
    destruct (_send_websocket_frame 10 payload true w1) as [[] w'];
      simpl; auto; discriminate. }
  intros [] w2 Hs.
  apply (writing_run _ _ _ _ _ (writing_send_frame _ _ _)) in Hs as [_ E2].
  apply IH; rewrite E2; lia.
Qed.

End Footprint.

(** ** Stripping *)

Lemma append_nil_r (s : string) : s +++ "" = s.
Proof. induction s as [| c s IH]; simpl; [reflexivity | now rewrite IH]. Qed.

Lemma append_assoc (a b c : string) : (a +++ b) +++ c = a +++ b +++ c.
Proof. induction a as [| x a IH]; simpl; [reflexivity | now rewrite IH]. Qed.

Lemma lstrip_spaces (a s : string) :
  all_space a = true -> lstrip (a +++ s) = lstrip s.
Proof.
  induction a as [| c a IH]; simpl; [reflexivity |].
  intros H. apply andb_prop in H as [Hc Ha]. rewrite Hc. now apply IH.
Qed.

Lemma rstrip_all_space (b : string) : all_space b = true -> rstrip b = "".
Proof.
  induction b as [| c b IH]; simpl; [reflexivity |].
  intros H. apply andb_prop in H as [Hc Hb]. rewrite (IH Hb). now rewrite Hc.
Qed.

Lemma rstrip_spaces (s b : string) :
  all_space b = true -> rstrip (s +++ b) = rstrip s.
Proof.
  intros Hb. induction s as [| c s IH]; simpl.
  - now apply rstrip_all_space.
  - now rewrite IH.
Qed.

Lemma rstrip_keeps_front (a s : string) :
  rstrip s = s -> s <> "" -> rstrip (a +++ s) = a +++ s.
Proof.
  intros Hs Hne. induction a as [| c a IH]; simpl; [exact Hs |].
  rewrite IH. destruct (a +++ s) eqn:E; [| reflexivity].
  destruct a; simpl in E; [contradiction | discriminate].
Qed.

(** [strip] removes the whitespace around a tight core. *)
Lemma strip_around (a core b : string) :
  all_space a = true -> all_space b = true -> tight core ->
  strip (a +++ core +++ b) = core.
Proof.
  intros Ha Hb [Hl Hr]. unfold strip.
  rewrite lstrip_spaces by assumption.
  destruct core as [| c core].
  - simpl. rewrite rstrip_all_space; [reflexivity |].
    clear - Hb. induction b as [| x b IH]; simpl in *; [reflexivity |].
    apply andb_prop in Hb as [Hx Hb']. rewrite Hx. now apply IH.
  - assert (Hc : isspace c = false).
    { simpl in Hl. destruct (isspace c) eqn:E; [| reflexivity].
      exfalso. clear - Hl.
      assert (Hlen : (String.length (lstrip core) <= String.length core)%nat).
      { clear. induction core as [| x core IH]; simpl; [lia |].
        destruct (isspace x); simpl; lia. }
      rewrite Hl in Hlen. simpl in Hlen. lia. }
    simpl. rewrite Hc. change (String c (core +++ b)) with (String c core +++ b).
    rewrite rstrip_spaces by assumption. exact Hr.
Qed.

Lemma tight_empty : tight "".
Proof. split; reflexivity. Qed.

(** A [data:] line with a tight body is tight. *)
Lemma tight_data (b body : string) :
  all_space b = true -> tight body -> body <> "" ->
  tight ("data:" +++ b +++ body).
Proof.
  intros Hb [Hl Hr] Hne. split; [reflexivity |].
  apply (rstrip_keeps_front ("data:" +++ b) body Hr) in Hne.
  now rewrite append_assoc in Hne.
Qed.

Lemma strip_stable (s : string) : tight s -> strip s = s.
Proof.
  intros H. pose proof (strip_around "" s "" eq_refl eq_refl H) as E.
  simpl in E. now rewrite append_nil_r in E.
Qed.

(** ** Specified properties: the frame codec *)

Section FrameCodec.

Context {Py : Python}.

(** C1.  For a payload [P] and a four-byte key [K], the encoder's masking
    (byte [i] xor [K[i % 4]]) gives a byte string as long as [P], and the
    decoder's unmasking of it with the same key gives [P] back. *)
Theorem mask_unmask_round_trip (P K : bytes) :
  is_bytes P -> is_bytes K -> List.length K = 4%nat ->
  is_bytes (xor_mask K P)
  /\ List.length (xor_mask K P) = List.length P
  /\ xor_mask K (xor_mask K P) = P.
Proof.
  intros HP HK _. unfold xor_mask. repeat split.
  - now apply xor_from_bytes.
  - apply xor_from_length.
  - apply xor_from_involutive.
Qed.

(** C2.  For a payload length below 2^64 the encoder writes the length field
    in the smallest of the three layouts that can carry it, and the decoder,
    reading that field, finds the same length. *)
Theorem length_field_minimal_and_exact (first_byte length : Z) (mask : bool)
  (w : world) :
  0 <= length < 2 ^ 64 ->
  exists (second : Z) (ext : bytes),
    frame_header first_byte length mask w =
      (Return ([first_byte; second] ++ ext), w)
    /\ List.length ext = extension_bytes (encoding_of second)
    /\ can_represent (encoding_of second) length
    /\ (forall e : length_encoding,
          can_represent e length ->
          (extension_bytes (encoding_of second) <= extension_bytes e)%nat)
    /\ (forall (r : world) (rest : bytes),
          inbound r = ext ++ rest ->
          recv_length second r = (Return length, set_inbound rest r)).
Proof.
  intros Hlen.
  destruct (frame_header_shape first_byte length mask w Hlen)
    as (c & ext & Hhdr & Hc & Hshape).
  exists (Z.lor (mask_bit mask) c), ext.
  split; [exact Hhdr |].
  assert (Henc : encoding_of (Z.lor (mask_bit mask) c) =
                 if c =? 126 then Len16 else if c =? 127 then Len64 else Len7).
  { unfold encoding_of. now rewrite second_byte_length by assumption. }
  rewrite Henc.
  split; [| split; [| split]].
  - destruct Hshape as [(H7 & -> & ->) | [(H16 & -> & ->) | (H64 & -> & ->)]].
    + destruct (Z.eqb_spec length 126); [lia |].
      destruct (Z.eqb_spec length 127); [lia |]. reflexivity.
    + apply big_endian_length.
    + apply big_endian_length.
  - destruct Hshape as [(H7 & -> & _) | [(H16 & -> & _) | (H64 & -> & _)]].
    + destruct (Z.eqb_spec length 126); [lia |].
      destruct (Z.eqb_spec length 127); [lia |]. simpl. lia.
    + simpl. lia.
    + simpl. lia.
  - intros e He.
    destruct Hshape as [(H7 & -> & _) | [(H16 & -> & _) | (H64 & -> & _)]].
    + destruct (Z.eqb_spec length 126); [lia |].
      destruct (Z.eqb_spec length 127); [lia |]. simpl. lia.
    + destruct e; simpl in *; lia.
    + destruct e; simpl in *; lia.
  - intros r rest Hin.
    now apply (recv_length_reads length c ext rest mask r).
Qed.

End FrameCodec.

Lemma mask_unmask_round_trip_witness :
  is_bytes (xor_mask [1; 2; 3; 4] [104; 105; 33; 0; 255])
  /\ List.length (xor_mask [1; 2; 3; 4] [104; 105; 33; 0; 255]) = 5%nat
  /\ xor_mask [1; 2; 3; 4] (xor_mask [1; 2; 3; 4] [104; 105; 33; 0; 255])
     = [104; 105; 33; 0; 255].
Proof.
  apply (mask_unmask_round_trip [104; 105; 33; 0; 255] [1; 2; 3; 4]).
  - repeat constructor; unfold is_byte; lia.
  - repeat constructor; unfold is_byte; lia.
  - reflexivity.
Defined.

Lemma length_field_minimal_and_exact_witness :
  exists (second : Z) (ext : bytes),
    frame_header (Py := Fragment.runtime) 129 300 true (Fragment.calm []) =
      (Return ([129; second] ++ ext), Fragment.calm [])
    /\ List.length ext = extension_bytes (encoding_of second)
    /\ can_represent (encoding_of second) 300
    /\ (forall e : length_encoding,
          can_represent e 300 ->
          (extension_bytes (encoding_of second) <= extension_bytes e)%nat)
    /\ (forall (r : @world Fragment.runtime) (rest : bytes),
          inbound r = ext ++ rest ->
          recv_length second r = (Return 300, set_inbound rest r)).
Proof.
  apply (length_field_minimal_and_exact (Py := Fragment.runtime)
           129 300 true (Fragment.calm [])).
  split; [lia | reflexivity].
Defined.

(** ** Specified properties: the WebSocket driver and the facade *)

Section WebSocketDriver.

Context {Py : Python}.

Lemma reads_keeps (w w' : world) :
  reads w w' -> log w' = log w /\ yielded w' = yielded w
                /\ send_faults w' = send_faults w /\ drawn w' = drawn w
                /\ demand w' = demand w.
Proof. intros [E _]. rewrite E. repeat split. Qed.

(** C5.  In the receive loop a ping frame is answered by one pong frame that
    carries the same payload, nothing is yielded for it, and the loop goes
    on; a close frame ends the loop and the generator without an error, the
    socket closed. *)
Theorem ping_is_answered_and_close_ends
  (w w1 : world) (ping : bytes) (v v1 : world) (reason : bytes) :
  recv_frame w = (Return (0x9, ping), w1) ->
  len ping < 2 ^ 64 ->
  hd false (send_faults w1) = false ->
  recv_frame v = (Return (0x8, reason), v1) ->
  (exists pong : bytes,
      let w2 := after_send pong (set_drawn (drawn w1 + 4)%nat w1) in
      ws_receive w = ws_receive w2
      /\ log w2 = log w ++ [EvSend pong]
      /\ yielded w2 = yielded w
      /\ forall (r : world) (rest : bytes),
           inbound r = pong ++ rest ->
           recv_frame r = (Return (0xA, ping), set_inbound rest r))
  /\ ws_receive v = (Return tt, v1)
  /\ try_finally ws_receive sock_close v = (Return tt, log_event EvClose v1)
  /\ yielded v1 = yielded v.
Proof.
  intros Hping Hlen Hsend Hclose. split; [| split; [| split]].
  - destruct (send_frame_wire 0xA ping true w1 Hlen Hsend)
      as (pong & Hrun & Hwire).
    exists pong. cbv zeta.
    destruct (recv_frame_consumes _ _ _ Hping) as [Hreads Hshort].
    destruct (reads_keeps _ _ Hreads) as (Hlog & Hyield & _).
    split; [| split; [| split]].
    + unfold ws_receive at 1. cbn [ws_loop].
      rewrite (bind_ok _ _ _ _ _ _ _ Hping). cbn beta iota.
      change (9 =? 1) with false. change (9 =? 8) with false.
      change (9 =? 9) with true. cbv iota.
      rewrite (bind_ok _ _ _ _ _ _ _ Hrun).
      unfold ws_receive. apply ws_loop_fuel; cbn [inbound after_send log_event
        set_send_faults set_drawn]; lia.
    + cbn [log after_send log_event set_send_faults set_drawn]. now rewrite Hlog.
    + cbn [yielded after_send log_event set_send_faults set_drawn]. exact Hyield.
    + exact Hwire.
  - unfold ws_receive. cbn [ws_loop].
    now rewrite (bind_ok _ _ _ _ _ _ _ Hclose).
  - unfold try_finally, ws_receive. cbn [ws_loop].
    now rewrite (bind_ok _ _ _ _ _ _ _ Hclose).
  - destruct (recv_frame_consumes _ _ _ Hclose) as [Hreads _].
    now destruct (reads_keeps _ _ Hreads) as (_ & Hyield & _).
Qed.

(** C8.  With a scheme other than ws, wss, http and https the stream raises
    [ValueError] and the world is as it was: no socket, no request. *)
Theorem unsupported_scheme_raises_before_io
  (parsed : ParseResult) (question : string) (w : world) :
  scheme parsed <> "ws" -> scheme parsed <> "wss" ->
  scheme parsed <> "http" -> scheme parsed <> "https" ->
  stream parsed question w =
    (Raise (ValueError ("Unsupported AG_UI_SERVER scheme: " +++ scheme parsed)),
     w).
Proof.
  intros Hws Hwss Hhttp Hhttps. unfold stream.
  apply String.eqb_neq in Hws, Hwss, Hhttp, Hhttps.
  now rewrite Hws, Hwss, Hhttp, Hhttps.
Qed.

End WebSocketDriver.

Section WebSocketExamples.

#[local] Existing Instance Fragment.runtime.

Lemma ping_is_answered_and_close_ends_witness :
  let w := Fragment.calm [0x89; 2; 1; 2] in
  let v := Fragment.calm [0x88; 0] in
  (exists pong : bytes,
      let w2 := after_send pong (set_drawn 4%nat (set_inbound [] w)) in
      ws_receive w = ws_receive w2
      /\ log w2 = log w ++ [EvSend pong]
      /\ yielded w2 = yielded w
      /\ forall (r : @world Fragment.runtime) (rest : bytes),
           inbound r = pong ++ rest ->
           recv_frame r = (Return (0xA, [1; 2]), set_inbound rest r))
  /\ ws_receive v = (Return tt, set_inbound [] v)
  /\ try_finally ws_receive sock_close v
     = (Return tt, log_event EvClose (set_inbound [] v))
  /\ yielded (set_inbound [] v) = yielded v.
Proof.
  intros w v.
  apply (ping_is_answered_and_close_ends (Py := Fragment.runtime)
           w (set_inbound [] w) [1; 2] v (set_inbound [] v) []).
  - reflexivity.
  - reflexivity.
  - reflexivity.
  - reflexivity.
Defined.

Lemma unsupported_scheme_raises_before_io_witness :
  stream (Py := Fragment.runtime)
    (mkParseResult "ftp" (Some "host") PortNone "" "" "ftp://host")
    "hi" (Fragment.calm []) =
  (Raise (ValueError "Unsupported AG_UI_SERVER scheme: ftp"), Fragment.calm []).
Proof.
  apply (unsupported_scheme_raises_before_io (Py := Fragment.runtime)
           (mkParseResult "ftp" (Some "host") PortNone "" "" "ftp://host")
           "hi" (Fragment.calm []));
    discriminate.
Defined.

(** C3.  The socket is not closed on every exit path.  When the send of the
    question frame raises after a good handshake, and when the read of the
    handshake reply times out, the generator ends with the exception and the
    socket it opened is never closed. *)
Theorem socket_left_open_before_receive_loop :
  let send_fails :=
    _stream_websocket (Py := Fragment.runtime) Fragment.endpoint "hi"
      (set_send_faults [false; true] (Fragment.calm Fragment.switching)) in
  let read_times_out :=
    _stream_websocket (Py := Fragment.runtime) Fragment.endpoint "hi"
      (mkWorld true true [] TimesOut 0 [] (fun _ => 0) 0 None [] [] None) in
  fst send_fails = Raise (OSError "send")
  /\ In (EvConnect "host" 80) (log (snd send_fails))
  /\ ~ In EvClose (log (snd send_fails))
  /\ fst read_times_out = Raise (OSError "timed out")
  /\ In (EvConnect "host" 80) (log (snd read_times_out))
  /\ ~ In EvClose (log (snd read_times_out)).
Proof.
  vm_compute. repeat split; auto.
  - intros [H | [H | []]]; discriminate.
  - intros [H | [H | []]]; discriminate.
Qed.

End WebSocketExamples.

(** ** Specified properties: the normaliser *)

Section Normaliser.

Context {Py : Python}.

Lemma truthy_not_null (v : value) : truthy v = true -> v <> JNull.
Proof. intros H E. subst v. discriminate. Qed.

Lemma py_or_chain (a b c d : value) :
  py_or (py_or (py_or a b) c) d =
  if truthy a then a else if truthy b then b else if truthy c then c else d.
Proof.
  unfold py_or.
  destruct (truthy a) eqn:Ea; destruct (truthy b) eqn:Eb;
    destruct (truthy c) eqn:Ec;
    repeat (rewrite ?Ea, ?Eb, ?Ec; cbn iota); reflexivity.
Qed.

(** C4, as the code has it.  The speaker is the value of the first key among
    user, sender, name, role whose value is truthy, and the value of role
    ([None] when absent) when none is; the body likewise among message,
    content, text, body.  The body is replaced by the whole mapping,
    serialised, when the selected body is [None], which is when none of the
    four values is truthy and body is absent or null. *)
Theorem selection_by_truthiness (d : list (string * value)) :
  select_prefix d =
    match first_truthy speaker_keys d with
    | Some v => v
    | None => dict_get d "role"
    end
  /\ select_body d =
    match first_truthy body_keys d with
    | Some v => v
    | None => dict_get d "body"
    end
  /\ (select_body d = JNull <->
      first_truthy body_keys d = None /\ dict_get d "body" = JNull)
  /\ (select_body d = JNull ->
      render_body d (select_body d) = JString (json_dumps false (JObject d))).
Proof.
  unfold select_prefix, select_body. rewrite !py_or_chain.
  unfold speaker_keys, body_keys. cbn [first_truthy].
  split; [| split; [| split]].
  - destruct (truthy (dict_get d "user")); [reflexivity |].
    destruct (truthy (dict_get d "sender")); [reflexivity |].
    destruct (truthy (dict_get d "name")); [reflexivity |].
    destruct (truthy (dict_get d "role")) eqn:E; reflexivity.
  - destruct (truthy (dict_get d "message")); [reflexivity |].
    destruct (truthy (dict_get d "content")); [reflexivity |].
    destruct (truthy (dict_get d "text")); [reflexivity |].
    destruct (truthy (dict_get d "body")) eqn:E; reflexivity.
  - destruct (truthy (dict_get d "message")) eqn:E1.
    { split; [intros H; now apply truthy_not_null in E1 | intros [H _]; discriminate]. }
    destruct (truthy (dict_get d "content")) eqn:E2.
    { split; [intros H; now apply truthy_not_null in E2 | intros [H _]; discriminate]. }
    destruct (truthy (dict_get d "text")) eqn:E3.
    { split; [intros H; now apply truthy_not_null in E3 | intros [H _]; discriminate]. }
    destruct (truthy (dict_get d "body")) eqn:E4.
    { split; [intros H; now apply truthy_not_null in E4 | intros [H _]; discriminate]. }
    split; [intros H; now split | intros [_ H]; exact H].
  - intros H. now rewrite H.
Qed.


(** C9, as the code has it.  When the selected body is a mapping or a
    sequence, the text is its JSON serialisation, preceded by the speaker
    and a colon and a space when a speaker was found. *)
Theorem structured_body_is_serialised (d : list (string * value)) :
  is_structured (select_body d) = true ->
  text (normalize_value (JObject d)) =
    if truthy (select_prefix d)
    then str (select_prefix d) +++ ": " +++ json_dumps false (select_body d)
    else json_dumps false (select_body d).
Proof.
  intros H. cbn [normalize_value text].
  destruct (select_body d); try discriminate; reflexivity.
Qed.

End Normaliser.

Section NormaliserExamples.

#[local] Existing Instance Fragment.runtime.


Lemma structured_body_is_serialised_witness :
  text (normalize_value (Py := Fragment.runtime)
          (JObject [("content", JObject [("a", JInt 1)])]))
  = json_dumps false (JObject [("a", JInt 1)]).
Proof.
  apply (structured_body_is_serialised (Py := Fragment.runtime)
           [("content", JObject [("a", JInt 1)])]).
  reflexivity.
Defined.

(** C4 as stated fails: an empty string under message is passed over for the
    value under content, a zero under user for the value under sender, and a
    mapping whose only body field is an empty message is serialised whole. *)
Lemma selection_is_not_first_non_null :
  select_body (Py := Fragment.runtime)
    [("message", JString ""); ("content", JString "x")]
  <> first_non_null body_keys
       [("message", JString ""); ("content", JString "x")]
  /\ select_prefix (Py := Fragment.runtime)
       [("user", JInt 0); ("sender", JString "bob")]
     <> first_non_null speaker_keys
          [("user", JInt 0); ("sender", JString "bob")]
  /\ (dict_has (F := Empty_set) [("message", JString "")] "message" = true
      /\ render_body (Py := Fragment.runtime) [("message", JString "")]
           (select_body [("message", JString "")])
         = JString (json_dumps false (JObject [("message", JString "")]))).
Proof.
  repeat split; try discriminate; reflexivity.
Qed.


(** C9 as stated fails when a speaker is found: the text starts with it. *)
Lemma structured_body_with_speaker :
  text (normalize_value (Py := Fragment.runtime)
          (JObject [("user", JString "bot");
                    ("content", JObject [("a", JInt 1)])]))
  <> json_dumps false (JObject [("a", JInt 1)]).
Proof. discriminate. Qed.

End NormaliserExamples.

(** ** Specified properties: the HTTP driver *)

Section HttpDriver.

Context {Py : Python}.

Lemma all_space_append (a b : string) :
  all_space a = true -> all_space b = true -> all_space (a +++ b) = true.
Proof.
  intros Ha Hb. induction a as [| c a IH]; simpl in *; [exact Hb |].
  apply andb_prop in Ha as [Hc Ha]. rewrite Hc. now apply IH.
Qed.

(** A line of whitespace gives no message. *)
Lemma http_blank_line (raw_line : bytes) (rest : list bytes) (v : world) :
  all_space (decode raw_line) = true ->
  http_loop (raw_line :: rest) v = http_loop rest v.
Proof.
  intros Hblank. cbn [http_loop].
  pose proof (strip_around (decode raw_line) "" "" Hblank eq_refl tight_empty)
    as E.
  simpl in E. rewrite append_nil_r in E. now rewrite E.
Qed.

(** A line [data:] + whitespace + body, whitespace around it, is normalised
    as its body. *)
Lemma http_data_line (raw_line : bytes) (rest : list bytes) (v : world)
  (a b c body : string) :
  decode raw_line = a +++ "data:" +++ b +++ body +++ c ->
  all_space a = true -> all_space b = true -> all_space c = true ->
  tight body ->
  http_loop (raw_line :: rest) v =
  bind (lift (_normalize_message body))
       (fun m => bind (yield m) (fun _ => http_loop rest)) v.
Proof.
  intros Hline Ha Hb Hc Hbody. cbn [http_loop]. rewrite Hline.
  destruct body as [| x body].
  - (* nothing after the prefix *)
    assert (E : strip (a +++ "data:" +++ b +++ "" +++ c) = "data:").
    { replace (a +++ "data:" +++ b +++ "" +++ c)
        with (a +++ "data:" +++ (b +++ c)).
      - apply strip_around; [exact Ha | now apply all_space_append |].
        split; reflexivity.
      - simpl. reflexivity. }
    rewrite E. reflexivity.
  - assert (Hne : String x body <> "") by discriminate.
    assert (E : strip (a +++ "data:" +++ b +++ String x body +++ c)
                = "data:" +++ b +++ String x body).
    { replace (a +++ "data:" +++ b +++ String x body +++ c)
        with (a +++ ("data:" +++ b +++ String x body) +++ c).
      - apply strip_around; [exact Ha | exact Hc |].
        now apply tight_data.
      - simpl. now rewrite append_assoc. }
    rewrite E.
    assert (E0 : String.eqb ("data:" +++ b +++ String x body) "" = false)
      by reflexivity.
    assert (E1 : startswith "data:" ("data:" +++ b +++ String x body) = true)
      by reflexivity.
    assert (E3 : drop (String.length "data:") ("data:" +++ b +++ String x body)
                 = b +++ String x body) by reflexivity.
    rewrite E0, E1, E3.
    pose proof (strip_around b (String x body) "" Hb eq_refl Hbody) as E2.
    rewrite append_nil_r in E2. now rewrite E2.
Qed.

End HttpDriver.

Section HttpClaims.

Context {Py : Python}.

Lemma text_document_message (word : string) :
  word <> "" ->
  json_loads (text_document word) = Loaded (JObject [("text", JString word)]) ->
  _normalize_message (text_document word) =
    Return (mkMessage word (JObject [("text", JString word)])).
Proof.
  intros Hword H. unfold _normalize_message. rewrite H.
  destruct word as [| c word]; [contradiction | reflexivity].
Qed.

Lemma tight_text_document (word : string) : tight (text_document word).
Proof.
  split; [reflexivity |].
  unfold text_document, quoted.
  assert (Hend : forall s, rstrip (s +++ String "034" "}") = s +++ String "034" "}").
  { intros s. apply rstrip_keeps_front; [reflexivity | discriminate]. }
  replace ("{" +++ String "034" ("text" +++ String "034" "") +++ ":" +++
           String "034" (word +++ String "034" "") +++ "}")
    with (("{" +++ String "034" ("text" +++ String "034" "") +++ ":" +++
           String "034" word) +++ String "034" "}").
  - apply Hend.
  - simpl. now rewrite append_assoc.
Qed.

(** C6.  The three response lines of the example give two messages, "hello"
    and then "world", the blank line none; in general a line of whitespace
    is skipped, and of a line that starts with [data:] the prefix and the
    whitespace after it are dropped before normalisation. *)
Theorem http_lines_are_skipped_or_stripped
  (url question : string) (w : world) (l1 l2 l3 : bytes) :
  decode l1 = sse_line "hello" ->
  decode l2 = "" ->
  decode l3 = sse_line "world" ->
  json_loads (text_document "hello")
    = Loaded (JObject [("text", JString "hello")]) ->
  json_loads (text_document "world")
    = Loaded (JObject [("text", JString "world")]) ->
  http_lines w = Some [l1; l2; l3] ->
  after w = Eof ->
  demand w = None ->
  (exists (m1 m2 : AgUIMessage) (w' : world),
      _stream_http url question w = (Return tt, w')
      /\ yielded w' = yielded w ++ [m1; m2]
      /\ text m1 = "hello" /\ text m2 = "world")
  /\ (forall (raw_line : bytes) (rest : list bytes) (v : world),
        all_space (decode raw_line) = true ->
        http_loop (raw_line :: rest) v = http_loop rest v)
  /\ (forall (raw_line : bytes) (rest : list bytes) (v : world)
             (a b c body : string),
        decode raw_line = a +++ "data:" +++ b +++ body +++ c ->
        all_space a = true -> all_space b = true -> all_space c = true ->
        tight body ->
        http_loop (raw_line :: rest) v =
        bind (lift (_normalize_message body))
             (fun m => bind (yield m) (fun _ => http_loop rest)) v).
Proof.
  intros H1 H2 H3 Jhello Jworld Hlines Hafter Hdemand.
  split; [| split; [apply http_blank_line | apply http_data_line]].
  exists (mkMessage "hello" (JObject [("text", JString "hello")])),
         (mkMessage "world" (JObject [("text", JString "world")])).
  eexists. split; [| split; [| split; reflexivity]].
  - unfold _stream_http, urlopen, bind at 1. rewrite Hlines.
    unfold try_finally.
    rewrite (http_data_line l1 _ _ "" " " "" (text_document "hello"));
      [| rewrite H1; unfold sse_line; now rewrite append_nil_r
       | reflexivity .. | apply tight_text_document].
    rewrite (text_document_message "hello" ltac:(discriminate) Jhello).
    unfold lift, bind at 1. unfold bind at 1, yield at 1.
    cbn [demand log_event]. rewrite Hdemand.
    rewrite http_blank_line by (now rewrite H2).
    rewrite (http_data_line l3 _ _ "" " " "" (text_document "world"));
      [| rewrite H3; unfold sse_line; now rewrite append_nil_r
       | reflexivity .. | apply tight_text_document].
    rewrite (text_document_message "world" ltac:(discriminate) Jworld).
    unfold lift, bind at 1. unfold bind at 1, yield at 1.
    cbn [demand push_message http_loop after log_event]. rewrite Hafter.
    unfold http_close. reflexivity.
  - cbn [yielded log_event push_message]. now rewrite <- app_assoc.
Qed.

(** C10.  A line that is only [data:], whitespace around it or not, is not
    skipped: it is handed to the normaliser as the empty string, and the
    message yielded for it has text "" and raw "". *)
Theorem bare_data_line_is_not_skipped
  (raw_line : bytes) (rest : list bytes) (v : world) (a b : string) :
  decode raw_line = a +++ "data:" +++ b ->
  all_space a = true -> all_space b = true ->
  json_loads "" = JSONDecodeError ->
  _normalize_message "" = Return (mkMessage "" (JString ""))
  /\ http_loop (raw_line :: rest) v =
     bind (yield (mkMessage "" (JString ""))) (fun _ => http_loop rest) v.
Proof.
  intros Hline Ha Hb Hempty.
  assert (Hnorm : _normalize_message "" = Return (mkMessage "" (JString ""))).
  { unfold _normalize_message. now rewrite Hempty. }
  split; [exact Hnorm |].
  rewrite (http_data_line raw_line rest v a b "" "");
    [| rewrite Hline; simpl; now rewrite append_nil_r
     | assumption .. | reflexivity | apply tight_empty].
  rewrite Hnorm. reflexivity.
Qed.

End HttpClaims.

Section HttpExamples.

#[local] Existing Instance Fragment.runtime.

Lemma http_lines_are_skipped_or_stripped_witness :
  (exists (m1 m2 : AgUIMessage) (w' : world),
      _stream_http "http://host/ask" "hi" Fragment.example_response = (Return tt, w')
      /\ yielded w' = yielded Fragment.example_response ++ [m1; m2]
      /\ text m1 = "hello" /\ text m2 = "world")
  /\ (forall (raw_line : bytes) (rest : list bytes) (v : world),
        all_space (decode raw_line) = true ->
        http_loop (raw_line :: rest) v = http_loop rest v)
  /\ (forall (raw_line : bytes) (rest : list bytes) (v : world)
             (a b c body : string),
        decode raw_line = a +++ "data:" +++ b +++ body +++ c ->
        all_space a = true -> all_space b = true -> all_space c = true ->
        tight body ->
        http_loop (raw_line :: rest) v =
        bind (lift (_normalize_message body))
             (fun m => bind (yield m) (fun _ => http_loop rest)) v).
Proof.
  apply (http_lines_are_skipped_or_stripped "http://host/ask" "hi"
           Fragment.example_response
           (bytes_of_string (sse_line "hello")) []
           (bytes_of_string (sse_line "world")));
    reflexivity.
Defined.

Lemma bare_data_line_is_not_skipped_witness :
  _normalize_message "" = Return (mkMessage "" (JString ""))
  /\ http_loop [[32; 100; 97; 116; 97; 58; 32; 10]] (Fragment.calm []) =
     bind (yield (mkMessage "" (JString ""))) (fun _ => http_loop [])
          (Fragment.calm []).
Proof.
  apply (bare_data_line_is_not_skipped [32; 100; 97; 116; 97; 58; 32; 10] []
           (Fragment.calm []) " " (String " " (String "010" "")));
    reflexivity.
Defined.

End HttpExamples.

(** * Further properties of the code *)

(** ** Frames and exact reads *)

Section CodecExtras.

Context {Py : Python}.

(** X1.  A frame sent by [_send_websocket_frame], masked or not, is one
    [sendall], and the decoder reads from its bytes the opcode's low four
    bits and the payload, leaving what follows the frame unread. *)
Theorem sent_frame_decodes
  (opcode : Z) (payload : bytes) (mask : bool) (w : world) :
  len payload < 2 ^ 64 ->
  hd false (send_faults w) = false ->
  exists (frame : bytes) (w' : world),
    _send_websocket_frame opcode payload mask w = (Return tt, w')
    /\ log w' = log w ++ [EvSend frame]
    /\ yielded w' = yielded w
    /\ forall (r : world) (rest : bytes),
         inbound r = frame ++ rest ->
         recv_frame r = (Return (Z.land opcode 0x0F, payload),
                         set_inbound rest r).
Proof.
  intros Hlen Hsend.
  destruct (send_frame_wire opcode payload mask w Hlen Hsend)
    as (frame & Hrun & Hwire).
  exists frame. eexists. split; [exact Hrun |].
  split; [| split; [| exact Hwire]]; now destruct mask.
Qed.

(** X2.  [_recv_exact] returns exactly the bytes asked for, in order,
    however small the pieces [recv] hands over, and leaves the rest. *)
Theorem recv_exact_returns_exactly (data rest : bytes) (w : world) :
  inbound w = data ++ rest ->
  _recv_exact (len data) w = (Return data, set_inbound rest w).
Proof. apply recv_exact_prefix. Qed.

Lemma recv_exact_loop_short (nbytes : Z) :
  forall (fuel : nat) (data : bytes) (w : world),
    (List.length (inbound w) < fuel)%nat ->
    len data + len (inbound w) < nbytes ->
    recv_exact_loop fuel nbytes data w =
    (match after w with
     | Eof => Raise (ConnectionError "Socket connection closed unexpectedly")
     | TimesOut => Raise (OSError "timed out")
     end, set_inbound [] w).
Proof.
  induction fuel as [| fuel IH]; intros data w Hfuel Hshort; [lia |].
  cbn [recv_exact_loop].
  assert (Hpos : 0 <= len (inbound w)) by (unfold len; lia).
  destruct (Z.ltb_spec (len data) nbytes) as [Hmore | Hdone]; [| lia].
  unfold bind at 1, sock_recv.
  destruct (inbound w) as [| b tail] eqn:Ein.
  - assert (Ew : set_inbound [] w = w)
      by (rewrite <- Ein; apply set_inbound_same).
    rewrite Ew. now destruct (after w).
  - assert (Hne : (1 <= List.length (inbound w))%nat)
      by (rewrite Ein; simpl; lia).
    rewrite <- Ein in *.
    set (k := Z.to_nat (Z.min (nbytes - len data) (Z.of_nat (S (mtu w))))).
    assert (Hk : (1 <= k)%nat) by (unfold k; lia).
    destruct (firstn k (inbound w)) as [| c chunk] eqn:Echunk.
    { apply (f_equal (@List.length Z)) in Echunk.
      rewrite length_firstn in Echunk. simpl in Echunk. lia. }
    rewrite <- Echunk. rewrite IH.
    + reflexivity.
    + cbn [inbound set_inbound]. rewrite length_skipn. lia.
    + cbn [inbound set_inbound]. unfold len in *.
      rewrite length_app, length_firstn, length_skipn. lia.
Qed.

Lemma recv_exact_short (nbytes : Z) (w : world) :
  len (inbound w) < nbytes ->
  _recv_exact nbytes w =
  (match after w with
   | Eof => Raise (ConnectionError "Socket connection closed unexpectedly")
   | TimesOut => Raise (OSError "timed out")
   end, set_inbound [] w).
Proof.
  intros Hshort. unfold _recv_exact. apply recv_exact_loop_short; [lia |].
  unfold len at 1. simpl. lia.
Qed.

(** X3.  When the stream holds fewer bytes than asked for, [_recv_exact]
    takes them all and raises: [ConnectionError] if the peer has closed, the
    timeout if it has gone silent. *)
Theorem recv_exact_short_stream (nbytes : Z) (w : world) :
  len (inbound w) < nbytes ->
  _recv_exact nbytes w =
  (match after w with
   | Eof => Raise (ConnectionError "Socket connection closed unexpectedly")
   | TimesOut => Raise (OSError "timed out")
   end, set_inbound [] w).
Proof. apply recv_exact_short. Qed.

End CodecExtras.

(** ** Reading the handshake reply *)

Section HandshakeExtras.

Context {Py : Python}.

Lemma sock_recv_one (b : Z) (tail : bytes) (w : world) :
  inbound w = b :: tail ->
  sock_recv 1 w = (Return [b], set_inbound tail w).
Proof.
  intros Hin. unfold sock_recv. rewrite Hin.
  replace (Z.to_nat (Z.min 1 (Z.of_nat (S (mtu w))))) with 1%nat by lia.
  reflexivity.
Qed.

Lemma read_headers_loop_stops :
  forall (more buffer rest : bytes) (fuel : nat) (w : world),
    inbound w = more ++ rest ->
    (List.length more < fuel)%nat ->
    bytes_in CRLFCRLF (buffer ++ more) = true ->
    (forall k : nat, (k < List.length more)%nat ->
                     bytes_in CRLFCRLF (buffer ++ firstn k more) = false) ->
    read_headers_loop fuel buffer w =
      (Return (buffer ++ more), set_inbound rest w).
Proof.
  induction more as [| b more IH]; intros buffer rest fuel w Hin Hfuel Hend Hnot.
  - destruct fuel as [| fuel]; [simpl in Hfuel; lia |].
    cbn [read_headers_loop]. rewrite app_nil_r in *. rewrite Hend.
    simpl in Hin. rewrite <- Hin, set_inbound_same. reflexivity.
  - destruct fuel as [| fuel]; [simpl in Hfuel; lia |].
    cbn [read_headers_loop].
    pose proof (Hnot 0%nat ltac:(simpl; lia)) as H0.
    simpl in H0. rewrite app_nil_r in H0. rewrite H0. cbn [negb].
    unfold bind at 1. rewrite (sock_recv_one b (more ++ rest)) by exact Hin.
    rewrite (IH (buffer ++ [b]) rest fuel).
    + now rewrite <- app_assoc.
    + reflexivity.
    + simpl in Hfuel. lia.
    + now rewrite <- app_assoc.
    + intros k Hk. rewrite <- app_assoc. apply (Hnot (S k)). simpl. lia.
Qed.

Lemma read_headers_stops (head rest : bytes) (w : world) :
  inbound w = head ++ rest ->
  bytes_in CRLFCRLF head = true ->
  (forall k : nat, (k < List.length head)%nat ->
                   bytes_in CRLFCRLF (firstn k head) = false) ->
  _read_http_response_headers w = (Return (decode head), set_inbound rest w).
Proof.
  intros Hin Hend Hnot. unfold _read_http_response_headers, bind.
  rewrite (read_headers_loop_stops head [] rest); auto.
  rewrite Hin, length_app. lia.
Qed.

(** X4.  [_read_http_response_headers] reads up to the first blank line
    and not a byte further: what the server sends after the header block is
    left for the frame decoder. *)
Theorem headers_stop_at_blank_line (head rest : bytes) (w : world) :
  inbound w = head ++ rest ->
  bytes_in CRLFCRLF head = true ->
  (forall k : nat, (k < List.length head)%nat ->
                   bytes_in CRLFCRLF (firstn k head) = false) ->
  _read_http_response_headers w = (Return (decode head), set_inbound rest w).
Proof. apply read_headers_stops. Qed.

Lemma starts_with_app (pat a b : bytes) :
  starts_with pat a = true -> starts_with pat (a ++ b) = true.
Proof.
  revert a. induction pat as [| p pat IH]; intros a H; [reflexivity |].
  destruct a as [| x a]; [discriminate |]. simpl in *.
  apply andb_prop in H as [Hx Ha]. rewrite Hx. now apply IH.
Qed.

Lemma bytes_in_app (pat a b : bytes) :
  bytes_in pat a = true -> bytes_in pat (a ++ b) = true.
Proof.
  induction a as [| x a IH]; intros H.
  - simpl in H. rewrite orb_false_r in H.
    destruct pat; [| discriminate]. destruct b; reflexivity.
  - cbn [bytes_in] in H. apply orb_prop in H as [H | H].
    + change ((x :: a) ++ b) with (x :: (a ++ b)). cbn [bytes_in].
      change (x :: (a ++ b)) with ((x :: a) ++ b).
      now rewrite (starts_with_app _ _ _ H).
    + change ((x :: a) ++ b) with (x :: (a ++ b)). cbn [bytes_in].
      rewrite (IH H). apply orb_true_r.
Qed.

Lemma read_headers_loop_eof :
  forall (more buffer : bytes) (fuel : nat) (w : world),
    inbound w = more ->
    (List.length more < fuel)%nat ->
    bytes_in CRLFCRLF (buffer ++ more) = false ->
    read_headers_loop fuel buffer w =
      (match after w with
       | Eof => Return (buffer ++ more)
       | TimesOut => Raise (OSError "timed out")
       end, set_inbound [] w).
Proof.
  induction more as [| b more IH]; intros buffer fuel w Hin Hfuel Hnot.
  - destruct fuel as [| fuel]; [simpl in Hfuel; lia |].
    cbn [read_headers_loop]. rewrite app_nil_r in *. rewrite Hnot. cbn [negb].
    unfold bind at 1, sock_recv. rewrite Hin.
    assert (Ew : set_inbound [] w = w)
      by (rewrite <- Hin; apply set_inbound_same).
    rewrite Ew. now destruct (after w).
  - destruct fuel as [| fuel]; [simpl in Hfuel; lia |].
    cbn [read_headers_loop].
    assert (H0 : bytes_in CRLFCRLF buffer = false).
    { destruct (bytes_in CRLFCRLF buffer) eqn:E; [| reflexivity].
      now rewrite (bytes_in_app _ _ (b :: more) E) in Hnot. }
    rewrite H0. cbn [negb].
    unfold bind at 1. rewrite (sock_recv_one b more) by exact Hin.
    rewrite (IH (buffer ++ [b]) fuel).
    + now rewrite <- app_assoc.
    + reflexivity.
    + simpl in Hfuel. lia.
    + now rewrite <- app_assoc.
Qed.

(** X5.  When the server closes before the blank line, the reader returns
    what it got, without an exception; when it goes silent, the timeout
    propagates.  Either way everything sent has been read. *)
Theorem headers_cut_short (w : world) :
  bytes_in CRLFCRLF (inbound w) = false ->
  _read_http_response_headers w =
  (match after w with
   | Eof => Return (decode (inbound w))
   | TimesOut => Raise (OSError "timed out")
   end, set_inbound [] w).
Proof.
  intros Hnot. unfold _read_http_response_headers, bind.
  rewrite (read_headers_loop_eof (inbound w) []); auto.
  now destruct (after w).
Qed.

End HandshakeExtras.

(** ** The life of the socket *)

Section Lifetime.

Context {Py : Python}.

Lemma closes_app (a b : list event) : closes (a ++ b) = (closes a + closes b)%nat.
Proof.
  induction a as [| e a IH]; simpl; [reflexivity |].
  destruct e; simpl; now rewrite ?IH.
Qed.

Lemma logs_bind (A B : Type) (m : M A) (k : A -> M B) :
  logs no_close m -> (forall a, logs no_close (k a)) ->
  logs no_close (bind m k).
Proof.
  intros Hm Hk w. unfold bind. destruct (Hm w) as (m1 & E1 & P1).
  destruct (m w) as [[a | e |] w1]; simpl in *; eauto.
  destruct (Hk a w1) as (m2 & E2 & P2).
  exists (m1 ++ m2). rewrite E2, E1, app_assoc. split; [reflexivity |].
  unfold no_close in *. rewrite closes_app. lia.
Qed.

Lemma logs_silent (A : Type) (m : M A) :
  (forall w, log (snd (m w)) = log w) -> logs no_close m.
Proof.
  intros H w. exists []. now rewrite H, app_nil_r.
Qed.

Lemma logs_reading (A : Type) (m : M A) : reading m -> logs no_close m.
Proof.
  intros Hm. apply logs_silent. intros w. specialize (Hm w).
  destruct (m w) as [[a | e |] w']; simpl; try contradiction;
    destruct Hm as [E _]; now rewrite E.
Qed.

Lemma logs_sendall (data : bytes) : logs no_close (sendall data).
Proof.
  intros w. unfold sendall.
  destruct (send_faults w) as [| [|] later]; simpl.
  - exists [EvSend data]. now split.
  - exists []. now rewrite app_nil_r.
  - exists [EvSend data]. now split.
Qed.

Lemma logs_send_frame (opcode : Z) (payload : bytes) (mask : bool) :
  logs no_close (_send_websocket_frame opcode payload mask).
Proof.
  unfold _send_websocket_frame. apply logs_bind.
  - apply logs_silent. intros w. unfold frame_header, int_to_bytes.
    destruct (_ <? 126); [reflexivity |].
    destruct (_ <? _); unfold bind; destruct (_ && _); reflexivity.
  - intros header. destruct mask; [| apply logs_sendall].
    apply logs_bind; [now apply logs_silent | intros; apply logs_sendall].
Qed.

Lemma logs_yield (m : AgUIMessage) : logs no_close (yield m).
Proof.
  apply logs_silent. intros w. unfold yield.
  destruct (demand w) as [[| [| n]] |]; reflexivity.
Qed.

(** The receive loop logs sends and nothing else. *)
Lemma logs_ws_loop (fuel : nat) : logs no_close (ws_loop fuel).
Proof.
  induction fuel as [| fuel IH]; [now apply logs_silent |].
  cbn [ws_loop]. apply logs_bind; [apply logs_reading, reading_recv_frame |].
  intros [opcode payload].
  destruct (opcode =? 1).
  { apply logs_bind; [now apply logs_silent |]. intros m.
    apply logs_bind; [apply logs_yield | intros; exact IH]. }
  destruct (opcode =? 8); [now apply logs_silent |].
  destruct (opcode =? 9); [| exact IH].
  apply logs_bind; [apply logs_send_frame | intros; exact IH].
Qed.

(** X7.  From the moment the receive loop is entered the socket is closed
    exactly once, as the last thing the generator does, however the loop
    ends: close frame, exception, or the caller closing the generator. *)
Theorem receive_loop_closes_socket_once (w : world) :
  exists (mid : list event),
    fst (try_finally ws_receive sock_close w) <> Stuck
    /\ fst (try_finally ws_receive sock_close w) = fst (ws_receive w)
    /\ log (snd (try_finally ws_receive sock_close w))
       = log w ++ mid ++ [EvClose]
    /\ closes mid = 0%nat.
Proof.
  destruct (logs_ws_loop (S (List.length (inbound w))) w) as (mid & Hlog & Hmid).
  pose proof (ws_loop_total (S (List.length (inbound w))) w
                (Nat.lt_succ_diag_r _)) as Htotal.
  exists mid. unfold try_finally, ws_receive.
  destruct (ws_loop (S (List.length (inbound w))) w) as [[[] | e |] w'];
    simpl in *; try contradiction;
    (repeat split; [discriminate | now rewrite Hlog, app_assoc | exact Hmid]).
Qed.

(** X8.  When the caller takes one message and closes the generator, the
    loop stops at that [yield]: the socket is closed and no further frame
    is read. *)
Theorem early_close_by_caller
  (w w1 : world) (payload : bytes) (m : AgUIMessage) :
  recv_frame w = (Return (0x1, payload), w1) ->
  _normalize_message (decode payload) = Return m ->
  demand w1 = Some 1%nat ->
  try_finally ws_receive sock_close w =
    (Raise GeneratorExit, log_event EvClose (push_message m (Some 0%nat) w1)).
Proof.
  intros Hrecv Hnorm Hdemand. unfold try_finally, ws_receive. cbn [ws_loop].
  rewrite (bind_ok _ _ _ _ _ _ _ Hrecv). cbn beta iota.
  change (1 =? 1) with true. cbv iota.
  rewrite Hnorm. unfold lift, bind at 1. unfold bind at 1, yield.
  rewrite Hdemand. reflexivity.
Qed.

(** X9.  A frame that is neither text, close nor ping (binary,
    continuation, pong, reserved opcodes) is dropped: nothing is sent,
    nothing is yielded, the loop reads the next frame. *)
Theorem other_frames_are_dropped
  (w w1 : world) (opcode : Z) (payload : bytes) :
  recv_frame w = (Return (opcode, payload), w1) ->
  opcode <> 0x1 -> opcode <> 0x8 -> opcode <> 0x9 ->
  ws_receive w = ws_receive w1
  /\ log w1 = log w /\ yielded w1 = yielded w.
Proof.
  intros Hrecv H1 H8 H9.
  destruct (recv_frame_consumes _ _ _ Hrecv) as [[E _] Hshort].
  split; [| rewrite E; split; reflexivity].
  unfold ws_receive at 1. cbn [ws_loop].
  rewrite (bind_ok _ _ _ _ _ _ _ Hrecv). cbn beta iota.
  apply Z.eqb_neq in H1, H8, H9. rewrite H1, H8, H9.
  unfold ws_receive. apply ws_loop_fuel; lia.
Qed.

(** X10.  Only a close frame ends the loop quietly.  When the stream ends
    between frames (or inside a header) the loop raises: [ConnectionError]
    if the server has closed the connection, the timeout if it is silent. *)
Theorem stream_end_without_close_frame (w : world) :
  len (inbound w) < 2 ->
  ws_receive w =
  (match after w with
   | Eof => Raise (ConnectionError "Socket connection closed unexpectedly")
   | TimesOut => Raise (OSError "timed out")
   end, set_inbound [] w).
Proof.
  intros Hshort. unfold ws_receive. cbn [ws_loop]. unfold recv_frame.
  unfold bind at 1. unfold bind at 1.
  rewrite (recv_exact_short 2 w Hshort). now destruct (after w).
Qed.

(** X11.  A text frame is decoded, normalised and yielded, and the loop
    goes on with the next frame. *)
Theorem text_frame_is_yielded
  (w w1 : world) (payload : bytes) (m : AgUIMessage) :
  recv_frame w = (Return (0x1, payload), w1) ->
  _normalize_message (decode payload) = Return m ->
  demand w1 = None ->
  ws_receive w = ws_receive (push_message m None w1).
Proof.
  intros Hrecv Hnorm Hdemand.
  destruct (recv_frame_consumes _ _ _ Hrecv) as [_ Hshort].
  unfold ws_receive at 1. cbn [ws_loop].
  rewrite (bind_ok _ _ _ _ _ _ _ Hrecv). cbn beta iota.
  change (1 =? 1) with true. cbv iota.
  rewrite Hnorm. unfold lift, bind at 1. unfold bind at 1, yield.
  rewrite Hdemand.
  unfold ws_receive. apply ws_loop_fuel; cbn [inbound push_message]; lia.
Qed.

End Lifetime.

(** ** The upgrade *)

Section Upgrade.

Context {Py : Python}.

(** A masked frame as it lies on the wire: the two header bytes, the length
    extension, the four random bytes of the key, the masked payload. *)
Lemma send_frame_layout (opcode : Z) (payload : bytes) (w : world) :
  len payload < 2 ^ 64 ->
  hd false (send_faults w) = false ->
  exists (c : Z) (ext : bytes),
    0 <= c < 128
    /\ ((len payload < 126 /\ c = len payload /\ ext = [])
        \/ (126 <= len payload < 2 ^ 16 /\ c = 126
            /\ ext = big_endian 2 (len payload))
        \/ (2 ^ 16 <= len payload /\ c = 127
            /\ ext = big_endian 8 (len payload)))
    /\ _send_websocket_frame opcode payload true w =
       (Return tt,
        after_send
          ([Z.lor 0x80 (Z.land opcode 0x0F); Z.lor (mask_bit true) c]
             ++ ext ++ random_bytes 4 w
             ++ xor_mask (random_bytes 4 w) payload)
          (set_drawn (drawn w + 4)%nat w)).
Proof.
  intros Hlen Hsend. unfold _send_websocket_frame.
  assert (Hrange : 0 <= len payload < 2 ^ 64) by (unfold len in *; lia).
  destruct (frame_header_shape (Z.lor 0x80 (Z.land opcode 0x0F))
              (len payload) true w Hrange) as (c & ext & Hhdr & Hc & Hshape).
  exists c, ext. split; [exact Hc |]. split; [exact Hshape |].
  rewrite (bind_ok _ _ _ _ _ _ _ Hhdr).
  rewrite (bind_ok _ _ _ _ _ _ _ (urandom_run 4 w)).
  rewrite sendall_ok by exact Hsend.
  do 2 f_equal. simpl. now rewrite <- !app_assoc.
Qed.

(** Up to the handshake request nothing can fail in a healthy world: the
    driver connects, wraps the socket for wss, draws the key and sends the
    request, and goes on to read the reply. *)
Lemma upgrade_opening (parsed : ParseResult) (question : string) (w : world) :
  port parsed <> PortInvalid ->
  connect_ok w = true -> tls_ok w = true -> send_faults w = [] ->
  exists w4 : world,
    _stream_websocket parsed question w =
      bind _read_http_response_headers
        (fun response_headers =>
           if negb (str_in "101" (before CRLF response_headers))
           then bind sock_close
                  (fun _ => raise (ConnectionError "WebSocket upgrade failed"))
           else bind (_send_websocket_message (question_payload true question))
                  (fun _ => try_finally ws_receive sock_close)) w4
    /\ log w4 = log w ++ opening parsed w
    /\ w4 = log_event (EvSend (encode (handshake_request (ws_target parsed)
                                         (ws_host parsed)
                                         (b64encode (random_bytes 16 w)))))
              (set_drawn (drawn w + 16)%nat
                 (if String.eqb (scheme parsed) "wss"
                  then log_event (EvTls (ws_host parsed))
                         (log_event (EvConnect (ws_host parsed)
                                       (ws_port parsed)) w)
                  else log_event (EvConnect (ws_host parsed)
                                    (ws_port parsed)) w)).
Proof.
  intros Hport Hconnect Htls Hsend. unfold _stream_websocket.
  fold (ws_host parsed).
  assert (Hp : match port parsed with
               | PortInvalid =>
                   raise (ValueError "Port could not be cast to integer")
               | PortNone =>
                   ret (if String.eqb (scheme parsed) "wss" then 443 else 80)
               | Port n =>
                   ret (if n =? 0
                        then if String.eqb (scheme parsed) "wss"
                             then 443 else 80
                        else n)
               end w = (Return (ws_port parsed), w)).
  { unfold ws_port. destruct (port parsed); [contradiction | reflexivity ..]. }
  rewrite (bind_ok _ _ _ _ _ _ _ Hp).
  unfold bind at 1, create_connection. rewrite Hconnect.
  fold (ws_target parsed).
  set (w1 := log_event (EvConnect (ws_host parsed) (ws_port parsed)) w).
  set (w2 := if String.eqb (scheme parsed) "wss"
             then log_event (EvTls (ws_host parsed)) w1 else w1).
  assert (Hrun2 : (if String.eqb (scheme parsed) "wss"
                   then wrap_socket (ws_host parsed) else ret tt) w1
                  = (Return tt, w2)).
  { unfold w2. destruct (String.eqb (scheme parsed) "wss"); [| reflexivity].
    unfold wrap_socket. cbn [tls_ok w1 log_event]. now rewrite Htls. }
  rewrite (bind_ok _ _ _ _ _ _ _ Hrun2).
  rewrite (bind_ok _ _ _ _ _ _ _ (urandom_run 16 w2)).
  assert (Hseed : random_bytes 16 w2 = random_bytes 16 w).
  { unfold w2, w1. now destruct (String.eqb (scheme parsed) "wss"). }
  assert (Hdrawn : drawn w2 = drawn w).
  { unfold w2, w1. now destruct (String.eqb (scheme parsed) "wss"). }
  rewrite Hseed, Hdrawn.
  set (w3 := set_drawn (drawn w + 16) w2).
  set (request := encode (handshake_request _ _ _)).
  assert (Hs : sendall request w3 = (Return tt, log_event (EvSend request) w3)).
  { unfold sendall, w3, w2, w1.
    destruct (String.eqb (scheme parsed) "wss");
      cbn [send_faults set_drawn log_event]; now rewrite Hsend. }
  rewrite (bind_ok _ _ _ _ _ _ _ Hs).
  exists (log_event (EvSend request) w3).
  split; [reflexivity |]. split; [| reflexivity].
  unfold opening, w3, w2, w1. fold request.
  destruct (String.eqb (scheme parsed) "wss");
    cbn [log log_event set_drawn app]; now rewrite <- !app_assoc.
Qed.

(** X6.  When the status line of the reply does not contain 101, the
    socket is closed and [ConnectionError] is raised.  On the network the
    driver has then done this and nothing else: connected, wrapped the
    socket for wss, sent the handshake request, closed.  No question frame
    is sent, no message is yielded, and the bytes after the reply's header
    block are unread. *)
Theorem refused_upgrade_closes_socket
  (parsed : ParseResult) (question : string) (w : world) (head rest : bytes) :
  port parsed <> PortInvalid ->
  connect_ok w = true -> tls_ok w = true -> send_faults w = [] ->
  inbound w = head ++ rest ->
  bytes_in CRLFCRLF head = true ->
  (forall k : nat, (k < List.length head)%nat ->
                   bytes_in CRLFCRLF (firstn k head) = false) ->
  str_in "101" (before CRLF (decode head)) = false ->
  exists w' : world,
    _stream_websocket parsed question w =
      (Raise (ConnectionError "WebSocket upgrade failed"), w')
    /\ log w' = log w ++ opening parsed w ++ [EvClose]
    /\ yielded w' = yielded w
    /\ inbound w' = rest.
Proof.
  intros Hport Hconnect Htls Hsend Hin Hend Hfirst Hstatus.
  destruct (upgrade_opening parsed question w Hport Hconnect Htls Hsend)
    as (w4 & Hrun & Hlog & Hw4).
  rewrite Hrun.
  assert (Hin4 : inbound w4 = head ++ rest).
  { rewrite Hw4. destruct (String.eqb (scheme parsed) "wss"); exact Hin. }
  assert (Hy4 : yielded w4 = yielded w).
  { rewrite Hw4. now destruct (String.eqb (scheme parsed) "wss"). }
  rewrite (bind_ok _ _ _ _ _ _ _
             (read_headers_stops head rest w4 Hin4 Hend Hfirst)).
  rewrite Hstatus. cbn [negb].
  eexists. split; [reflexivity |].
  cbn [log yielded inbound log_event set_inbound].
  rewrite Hlog, Hy4, <- app_assoc. repeat split.
Qed.

(** X17.  When the status line of the reply contains 101, the driver sends
    the question right after the handshake request, as one frame and no
    more: a final text frame (first byte 0x81) with the mask bit set, the
    length of the payload in the form its size calls for, the four random
    bytes of the key, and the encoded JSON object masked with that key,
    which the decoder reads back as opcode 1 with that payload.
    Only then does it enter the receive loop, which starts at the first
    byte after the reply's header block. *)
Theorem accepted_upgrade_sends_question
  (parsed : ParseResult) (question : string) (w : world) (head rest : bytes) :
  port parsed <> PortInvalid ->
  connect_ok w = true -> tls_ok w = true -> send_faults w = [] ->
  inbound w = head ++ rest ->
  bytes_in CRLFCRLF head = true ->
  (forall k : nat, (k < List.length head)%nat ->
                   bytes_in CRLFCRLF (firstn k head) = false) ->
  str_in "101" (before CRLF (decode head)) = true ->
  len (encode (question_payload true question)) < 2 ^ 64 ->
  exists (second : Z) (ext : bytes) (w' : world),
    let payload := encode (question_payload true question) in
    let key := random_bytes 4 (set_drawn (drawn w + 16)%nat w) in
    let frame := [0x81; second] ++ ext ++ key ++ xor_mask key payload in
    _stream_websocket parsed question w = try_finally ws_receive sock_close w'
    /\ log w' = log w ++ opening parsed w ++ [EvSend frame]
    /\ Z.land second 0x80 = 0x80
    /\ ((len payload < 126 /\ second = Z.lor 0x80 (len payload) /\ ext = [])
        \/ (126 <= len payload < 2 ^ 16 /\ second = Z.lor 0x80 126
            /\ ext = big_endian 2 (len payload))
        \/ (2 ^ 16 <= len payload /\ second = Z.lor 0x80 127
            /\ ext = big_endian 8 (len payload)))
    /\ yielded w' = yielded w
    /\ inbound w' = rest
    /\ forall (r : world) (rest' : bytes),
         inbound r = frame ++ rest' ->
         recv_frame r = (Return (0x1, payload), set_inbound rest' r).
Proof.
  intros Hport Hconnect Htls Hsend Hin Hend Hfirst Hstatus Hlen.
  destruct (upgrade_opening parsed question w Hport Hconnect Htls Hsend)
    as (w4 & Hrun & Hlog & Hw4).
  rewrite Hrun.
  assert (Hin4 : inbound w4 = head ++ rest).
  { rewrite Hw4. destruct (String.eqb (scheme parsed) "wss"); exact Hin. }
  assert (Hy4 : yielded w4 = yielded w).
  { rewrite Hw4. now destruct (String.eqb (scheme parsed) "wss"). }
  assert (Hsf4 : send_faults w4 = []).
  { rewrite Hw4. destruct (String.eqb (scheme parsed) "wss"); exact Hsend. }
  rewrite (bind_ok _ _ _ _ _ _ _
             (read_headers_stops head rest w4 Hin4 Hend Hfirst)).
  rewrite Hstatus. cbn [negb].
  set (w5 := set_inbound rest w4).
  assert (Hs5 : hd false (send_faults w5) = false).
  { unfold w5. cbn [send_faults set_inbound]. now rewrite Hsf4. }
  assert (Hkey : random_bytes 4 w5
                 = random_bytes 4 (set_drawn (drawn w + 16)%nat w)).
  { unfold w5. rewrite Hw4.
    now destruct (String.eqb (scheme parsed) "wss"). }
  destruct (send_frame_layout 0x1 (encode (question_payload true question))
              w5 Hlen Hs5) as (c & ext & Hc & Hshape & Hsent).
  rewrite Hkey in Hsent.
  unfold _send_websocket_message. rewrite (bind_ok _ _ _ _ _ _ _ Hsent).
  exists (Z.lor (mask_bit true) c), ext. eexists. cbv zeta.
  split; [reflexivity |].
  cbn [log yielded inbound log_event set_inbound set_drawn after_send
       set_send_faults w5].
  split; [rewrite Hlog; now rewrite <- app_assoc |].
  split.
  { cbn [mask_bit]. rewrite Z.land_lor_distr_l.
    assert (E : Z.land c 0x80 = 0).
    { rewrite <- (low_bits c 7) by (simpl; lia).
      rewrite <- Z.land_assoc. simpl. apply Z.land_0_r. }
    now rewrite E. }
  split.
  { cbn [mask_bit].
    destruct Hshape as [(Hl & -> & ->) | [(Hl & -> & ->) | (Hl & -> & ->)]];
      [left | right; left | right; right]; repeat split; lia. }
  split; [exact Hy4 |]. split; [reflexivity |].
  intros r rest' Hr.
  assert (Hrange : 0 <= len (encode (question_payload true question)) < 2 ^ 64)
    by (unfold len in *; lia).
  apply (recv_frame_reads 0x1 (len (encode (question_payload true question)))
           c true ext (random_bytes 4 (set_drawn (drawn w + 16)%nat w))
           (encode (question_payload true question)) rest' r);
    [exact Hrange | exact Hc | exact Hshape | reflexivity
    | apply random_bytes_length |].
  rewrite Hr. simpl. now rewrite <- !app_assoc.
Qed.

End Upgrade.

(** ** The connection *)

Section Connection.

Context {Py : Python}.

Lemma grows_bind (A B : Type) (m : M A) (k : A -> M B) :
  logs anything m -> (forall a, logs anything (k a)) ->
  logs anything (bind m k).
Proof.
  intros Hm Hk w. unfold bind. destruct (Hm w) as (m1 & E1 & _).
  destruct (m w) as [[a | e |] w1]; simpl in *;
    try (exists m1; now split).
  destruct (Hk a w1) as (m2 & E2 & _).
  exists (m1 ++ m2). rewrite E2, E1, app_assoc. now split.
Qed.

Lemma grows_quiet (A : Type) (m : M A) : logs no_close m -> logs anything m.
Proof. intros H w. destruct (H w) as (more & E & _). now exists more. Qed.

Lemma grows_try_finally (A : Type) (body : M A) (cleanup : M unit) :
  logs anything body -> logs anything cleanup ->
  logs anything (try_finally body cleanup).
Proof.
  intros Hb Hc w. unfold try_finally. destruct (Hb w) as (m1 & E1 & _).
  destruct (body w) as [[a | e |] w1]; simpl in *;
    try (exists m1; now split);
    destruct (Hc w1) as (m2 & E2 & _);
    exists (m1 ++ m2); (split; [| exact I]);
    destruct (cleanup w1) as [[[] | e' |] w2]; simpl in *;
    now rewrite E2, E1, app_assoc.
Qed.

Lemma reading_read_headers_loop (fuel : nat) :
  forall buffer : bytes,
    forall w : world,
      match read_headers_loop fuel buffer w with
      | (_, w') => reads w w'
      end.
Proof.
  induction fuel as [| fuel IH]; intros buffer w; [apply reads_refl |].
  cbn [read_headers_loop].
  destruct (negb (bytes_in CRLFCRLF buffer)); [| apply reads_refl].
  unfold bind. pose proof (sock_recv_footprint 1 w) as H.
  destruct (sock_recv 1 w) as [[chunk | e |] w1]; [| subst; apply reads_refl
                                                    | contradiction].
  destruct H as (E1 & Hin & _).
  assert (R1 : reads w w1) by (split; eauto).
  destruct chunk as [| c chunk]; [exact R1 |].
  specialize (IH (buffer ++ c :: chunk) w1).
  destruct (read_headers_loop fuel (buffer ++ c :: chunk) w1) as [o w2].
  eapply reads_trans; eauto.
Qed.

Lemma logs_read_headers : logs no_close _read_http_response_headers.
Proof.
  apply logs_silent. intros w. unfold _read_http_response_headers, bind.
  pose proof (reading_read_headers_loop (S (List.length (inbound w))) [] w) as H.
  destruct (read_headers_loop _ [] w) as [[b | e |] w1]; simpl;
    destruct H as [E _]; now rewrite E.
Qed.

Lemma grows_after_connect (parsed : ParseResult) (question : string)
  (host : string) :
  logs anything
    (bind (if String.eqb (scheme parsed) "wss"
           then wrap_socket host else ret tt)
       (fun _ =>
        bind (urandom 16)
          (fun seed =>
           bind (sendall (encode (handshake_request
                    (if String.eqb (query parsed) ""
                     then (if String.eqb (path parsed) "" then "/"
                           else path parsed)
                     else (if String.eqb (path parsed) "" then "/"
                           else path parsed) +++ "?" +++ query parsed)
                    host (b64encode seed))))
             (fun _ =>
              bind _read_http_response_headers
                (fun response_headers =>
                 if negb (str_in "101" (before CRLF response_headers))
                 then bind sock_close
                        (fun _ => raise
                           (ConnectionError "WebSocket upgrade failed"))
                 else bind (_send_websocket_message
                              (question_payload true question))
                        (fun _ => try_finally ws_receive sock_close)))))).
Proof.
  apply grows_bind.
  { destruct (String.eqb _ _).
    - intros w. unfold wrap_socket. destruct (tls_ok w); simpl.
      + now exists [EvTls host].
      + exists []. now rewrite app_nil_r.
    - apply grows_quiet. now apply logs_silent. }
  intros _. apply grows_bind; [apply grows_quiet; now apply logs_silent |].
  intros seed. apply grows_bind; [apply grows_quiet, logs_sendall |].
  intros _. apply grows_bind; [apply grows_quiet, logs_read_headers |].
  intros response_headers.
  assert (Hclose : logs anything sock_close).
  { intros w. now exists [EvClose]. }
  destruct (negb _).
  - apply grows_bind; [exact Hclose |]. intros _.
    apply grows_quiet. now apply logs_silent.
  - apply grows_bind; [apply grows_quiet, logs_send_frame |]. intros _.
    apply grows_try_finally; [| exact Hclose].
    intros w. apply grows_quiet. intros v. apply logs_ws_loop.
Qed.

(** X16.  The driver connects to the port of the URL, and when the URL
    names none (or names 0) to 443 for wss and to 80 otherwise; the host is
    the URL's, the empty string when it has none.  The connection is the
    first thing it does on the network. *)
Theorem connects_to_the_scheme_default_port
  (parsed : ParseResult) (question : string) (w : world) (p : Z) :
  connect_ok w = true ->
  (exists n : Z, port parsed = Port n /\ n <> 0 /\ p = n)
  \/ ((port parsed = PortNone \/ port parsed = Port 0)
      /\ ((scheme parsed = "wss" /\ p = 443)
          \/ (scheme parsed <> "wss" /\ p = 80))) ->
  exists more : list event,
    log (snd (_stream_websocket parsed question w)) =
    log w ++ EvConnect (match hostname parsed with
                        | Some h => h
                        | None => ""
                        end) p :: more.
Proof.
  intros Hconnect Hport. unfold _stream_websocket.
  set (host := match hostname parsed with Some h => h | None => "" end).
  assert (Hp : match port parsed with
               | PortInvalid =>
                   raise (ValueError "Port could not be cast to integer")
               | PortNone =>
                   ret (if String.eqb (scheme parsed) "wss" then 443 else 80)
               | Port n =>
                   ret (if n =? 0
                        then if String.eqb (scheme parsed) "wss"
                             then 443 else 80
                        else n)
               end w = (Return p, w)).
  { destruct Hport as [(n & -> & Hn & ->) | [Hnone Hdefault]].
    - apply Z.eqb_neq in Hn. now rewrite Hn.
    - assert (E : (if String.eqb (scheme parsed) "wss" then 443 else 80) = p).
      { destruct Hdefault as [[-> ->] | [Hs ->]]; [reflexivity |].
        apply String.eqb_neq in Hs. now rewrite Hs. }
      destruct Hnone as [-> | ->]; cbn; now rewrite E. }
  rewrite (bind_ok _ _ _ _ _ _ _ Hp).
  unfold bind at 1, create_connection. rewrite Hconnect.
  destruct (grows_after_connect parsed question host
              (log_event (EvConnect host p) w)) as (more & E & _).
  exists more. rewrite E. cbn [log log_event]. now rewrite <- app_assoc.
Qed.

End Connection.

(** ** The HTTP response *)

Section HttpExtras.

Context {Py : Python}.

Lemma lstrip_all_space (s : string) : all_space s = true -> lstrip s = "".
Proof.
  induction s as [| c s IH]; simpl; [reflexivity |].
  intros H. apply andb_prop in H as [Hc Hs]. rewrite Hc. now apply IH.
Qed.

Lemma lstrip_head (s : string) :
  match lstrip s with
  | EmptyString => all_space s = true
  | String c _ => isspace c = false
  end.
Proof.
  induction s as [| c s IH]; simpl; [reflexivity |].
  destruct (isspace c) eqn:E; simpl; [| exact E].
  destruct (lstrip s); [exact IH | exact IH].
Qed.

Lemma rstrip_empty (s : string) : rstrip s = "" -> all_space s = true.
Proof.
  induction s as [| c s IH]; simpl; [reflexivity |].
  destruct (rstrip s) eqn:E; [| discriminate].
  destruct (isspace c); [intros _; now apply IH | discriminate].
Qed.

(** The blank test of the HTTP driver sees exactly the whitespace lines. *)
Lemma strip_empty (s : string) :
  String.eqb (strip s) "" = all_space s.
Proof.
  destruct (all_space s) eqn:E.
  - unfold strip. now rewrite lstrip_all_space.
  - apply String.eqb_neq. intros H. unfold strip in H.
    pose proof (lstrip_head s) as Hh. apply rstrip_empty in H.
    destruct (lstrip s) as [| c r]; [congruence |].
    simpl in H. rewrite Hh in H. discriminate.
Qed.

Lemma http_loop_footprint :
  forall (resp : list bytes) (v : world),
    fst (http_loop resp v) <> Stuck
    /\ log (snd (http_loop resp v)) = log v
    /\ exists new : list AgUIMessage,
         yielded (snd (http_loop resp v)) = yielded v ++ new
         /\ (List.length new <= List.length (content_lines resp))%nat
         /\ (fst (http_loop resp v) = Return tt ->
             List.length new = List.length (content_lines resp)).
Proof.
  unfold content_lines.
  induction resp as [| raw_line rest IH]; intros v.
  - cbn [http_loop]. destruct (after v); simpl;
      (split; [discriminate |]); (split; [reflexivity |]);
      exists []; rewrite app_nil_r; repeat split; auto; discriminate.
  - cbn [http_loop filter]. rewrite strip_empty.
    destruct (all_space (decode raw_line)) eqn:Eblank; cbn [negb].
    { exact (IH v). }
    set (line := if startswith "data:" (strip (decode raw_line))
                 then strip (drop (String.length "data:")
                               (strip (decode raw_line)))
                 else strip (decode raw_line)).
    pose proof (normalize_not_stuck line) as Hn.
    unfold bind, lift, yield.
    destruct (_normalize_message line) as [m | e |]; [| | contradiction].
    + destruct (demand v) as [[| [| n]] |].
      * simpl. split; [discriminate |]. split; [reflexivity |].
        exists [m]. repeat split; simpl; [lia | discriminate].
      * simpl. split; [discriminate |]. split; [reflexivity |].
        exists [m]. repeat split; simpl; [lia | discriminate].
      * destruct (IH (push_message m (Some (S n)) v))
          as (Hs & Hl & new & Hy & Hle & Heq).
        split; [exact Hs |]. split; [exact Hl |].
        exists (m :: new). rewrite Hy. cbn [yielded push_message].
        rewrite <- app_assoc. repeat split; simpl; [lia |].
        intros H. now rewrite (Heq H).
      * destruct (IH (push_message m None v))
          as (Hs & Hl & new & Hy & Hle & Heq).
        split; [exact Hs |]. split; [exact Hl |].
        exists (m :: new). rewrite Hy. cbn [yielded push_message].
        rewrite <- app_assoc. repeat split; simpl; [lia |].
        intros H. now rewrite (Heq H).
    + simpl. split; [discriminate |]. split; [reflexivity |].
      exists []. rewrite app_nil_r. repeat split; simpl; [lia | discriminate].
Qed.

(** X12.  Once [urlopen] has answered, the response is closed on every
    way out of [_stream_http] (end of body, read error, exception of the
    normaliser, the caller closing the generator), and the request and the
    close are all the driver does on the network. *)
Theorem http_response_is_always_closed
  (url question : string) (w : world) (resp : list bytes) :
  http_lines w = Some resp ->
  fst (_stream_http url question w) <> Stuck
  /\ log (snd (_stream_http url question w)) =
     log w ++ [EvUrlopen url (encode (question_payload false question));
               EvHttpClose].
Proof.
  intros Hresp. unfold _stream_http, bind, urlopen. rewrite Hresp.
  set (w1 := log_event _ w).
  destruct (http_loop_footprint resp w1) as (Hs & Hl & _).
  unfold try_finally, http_close.
  destruct (http_loop resp w1) as [[[] | e |] w2]; simpl in *;
    try contradiction; (split; [discriminate |]);
    rewrite Hl; unfold w1; cbn [log log_event]; now rewrite <- app_assoc.
Qed.

(** X13.  The HTTP driver yields at most one message per line that is
    not blank, and exactly one per such line when it comes to the end of the
    body. *)
Theorem http_one_message_per_content_line
  (url question : string) (w : world) (resp : list bytes) :
  http_lines w = Some resp ->
  exists new : list AgUIMessage,
    yielded (snd (_stream_http url question w)) = yielded w ++ new
    /\ (List.length new <= List.length (content_lines resp))%nat
    /\ (fst (_stream_http url question w) = Return tt ->
        List.length new = List.length (content_lines resp)).
Proof.
  intros Hresp. unfold _stream_http, bind, urlopen. rewrite Hresp.
  set (w1 := log_event _ w).
  destruct (http_loop_footprint resp w1) as (Hs & _ & new & Hy & Hle & Heq).
  exists new. unfold try_finally, http_close.
  destruct (http_loop resp w1) as [[[] | e |] w2]; simpl in *;
    try contradiction; (split; [exact Hy |]); (split; [exact Hle |]);
    auto; discriminate.
Qed.

End HttpExtras.

(** ** Display text *)

Section NormaliserExtras.

Context {Py : Python}.

(** X14.  Whatever [json.loads] makes of the text is kept as it is in
    [raw]; and of a document that is not an object (a string, a number, a
    list, a literal) the text is its [str]. *)
Theorem parsed_value_is_kept (raw_text : string) (parsed : value) :
  json_loads raw_text = Loaded parsed ->
  exists m : AgUIMessage,
    _normalize_message raw_text = Return m
    /\ raw m = parsed
    /\ (match parsed with
        | JObject _ => True
        | _ => text m = str parsed
        end).
Proof.
  intros H. unfold _normalize_message. rewrite H.
  eexists. split; [reflexivity |]. destruct parsed; simpl; auto.
Qed.

Lemma first_truthy_some (keys : list string) (d : list (string * value))
  (v : value) : first_truthy keys d = Some v -> truthy v = true.
Proof.
  induction keys as [| k keys IH]; simpl; [discriminate |].
  destruct (truthy (dict_get d k)) eqn:E; [| exact IH].
  intros H. injection H as <-. exact E.
Qed.

Lemma first_truthy_none (keys : list string) (d : list (string * value))
  (k : string) :
  first_truthy keys d = None -> In k keys -> truthy (dict_get d k) = false.
Proof.
  induction keys as [| k' keys IH]; simpl; [contradiction |].
  destruct (truthy (dict_get d k')) eqn:E; [discriminate |].
  intros H [<- | Hin]; [exact E | now apply IH].
Qed.

Lemma select_prefix_first_truthy (d : list (string * value)) :
  select_prefix d =
    match first_truthy speaker_keys d with
    | Some v => v
    | None => dict_get d "role"
    end.
Proof.
  unfold select_prefix. rewrite py_or_chain.
  unfold speaker_keys. cbn [first_truthy].
  destruct (truthy (dict_get d "user")); [reflexivity |].
  destruct (truthy (dict_get d "sender")); [reflexivity |].
  destruct (truthy (dict_get d "name")); [reflexivity |].
  destruct (truthy (dict_get d "role")); reflexivity.
Qed.

Lemma select_body_first_truthy (d : list (string * value)) :
  select_body d =
    match first_truthy body_keys d with
    | Some v => v
    | None => dict_get d "body"
    end.
Proof.
  unfold select_body. rewrite py_or_chain.
  unfold body_keys. cbn [first_truthy].
  destruct (truthy (dict_get d "message")); [reflexivity |].
  destruct (truthy (dict_get d "content")); [reflexivity |].
  destruct (truthy (dict_get d "text")); [reflexivity |].
  destruct (truthy (dict_get d "body")); reflexivity.
Qed.

(** X15.  When the first truthy body field is a string, the text is that
    string, after the speaker and a colon and a space when the first truthy
    speaker field is a string too; a mapping with no truthy speaker field
    shows the body alone. *)
Theorem text_of_plain_fields
  (d : list (string * value)) (body : string) :
  first_truthy body_keys d = Some (JString body) ->
  (forall speaker : string,
      first_truthy speaker_keys d = Some (JString speaker) ->
      text (normalize_value (JObject d)) = speaker +++ ": " +++ body)
  /\ (first_truthy speaker_keys d = None ->
      text (normalize_value (JObject d)) = body).
Proof.
  intros Hbody. cbn [normalize_value text].
  rewrite select_body_first_truthy, Hbody, select_prefix_first_truthy.
  cbn [render_body str]. split.
  - intros speaker Hs. rewrite Hs.
    now rewrite (first_truthy_some _ _ _ Hs).
  - intros Hs. rewrite Hs.
    rewrite (first_truthy_none speaker_keys d "role" Hs); [reflexivity |].
    simpl. auto.
Qed.

End NormaliserExtras.

(** ** Termination *)

Section Termination.

Context {Py : Python}.

Lemma read_headers_loop_total (fuel : nat) :
  forall (buffer : bytes) (w : world),
    (List.length (inbound w) < fuel)%nat ->
    fst (read_headers_loop fuel buffer w) <> Stuck.
Proof.
  induction fuel as [| fuel IH]; intros buffer w Hfuel; [lia |].
  cbn [read_headers_loop].
  destruct (negb (bytes_in CRLFCRLF buffer)); [| discriminate].
  unfold bind. pose proof (sock_recv_footprint 1 w) as H.
  destruct (sock_recv 1 w) as [[chunk | e |] w1];
    [| discriminate | contradiction].
  destruct H as (_ & Hin & _).
  destruct chunk as [| c chunk]; [discriminate |].
  apply IH. rewrite Hin in Hfuel. simpl in Hfuel.
  rewrite length_app in Hfuel. lia.
Qed.

Lemma total_writing (A : Type) (m : M A) (w : world) :
  writing m -> fst (m w) <> Stuck.
Proof.
  intros H. specialize (H w). destruct (m w) as [[] ?]; simpl;
    try discriminate. contradiction.
Qed.

Lemma websocket_total (parsed : ParseResult) (question : string) (w : world) :
  fst (_stream_websocket parsed question w) <> Stuck.
Proof.
  unfold _stream_websocket. apply bind_total.
  { destruct (port parsed); discriminate. }
  intros p w0 _. apply bind_total.
  { unfold create_connection. destruct (connect_ok w0); discriminate. }
  intros _ w1 _. apply bind_total.
  { destruct (String.eqb _ _); [| discriminate].
    unfold wrap_socket. destruct (tls_ok w1); discriminate. }
  intros _ w2 _. apply bind_total; [discriminate |].
  intros seed w3 _. apply bind_total.
  { apply total_writing, writing_sendall. }
  intros _ w4 _. apply bind_total.
  { unfold _read_http_response_headers. apply bind_total; [| discriminate].
    apply read_headers_loop_total. lia. }
  intros response_headers w5 _.
  destruct (negb _).
  - apply bind_total; discriminate.
  - apply bind_total.
    { apply total_writing, writing_send_frame. }
    intros _ w6 _. unfold try_finally, ws_receive.
    pose proof (ws_loop_total (S (List.length (inbound w6))) w6
                  (Nat.lt_succ_diag_r _)) as H.
    destruct (ws_loop _ w6) as [[[] | e |] w7]; simpl in *;
      try discriminate. contradiction.
Qed.

(** X18.  The stream always comes to an end, with a return or with an
    exception: on a finite input no loop of the client runs for ever. *)
Theorem stream_always_ends
  (parsed : ParseResult) (question : string) (w : world) :
  exists (w' : world),
    stream parsed question w = (Return tt, w')
    \/ exists e : exn, stream parsed question w = (Raise e, w').
Proof.
  assert (H : fst (stream parsed question w) <> Stuck).
  { unfold stream. destruct (_ || _); [apply websocket_total |].
    destruct (_ || _); [| discriminate].
    unfold _stream_http, bind, urlopen.
    destruct (http_lines w) as [resp |] eqn:E; [| discriminate].
    set (w1 := log_event _ w).
    destruct (http_loop_footprint resp w1) as (Hs & _).
    unfold try_finally, http_close.
    destruct (http_loop resp w1) as [[[] | e |] w2]; simpl in *;
      try discriminate. contradiction. }
  destruct (stream parsed question w) as [[[] | e |] w']; simpl in H.
  - exists w'. now left.
  - exists w'. right. now exists e.
  - contradiction.
Qed.

End Termination.

(** ** The command line *)

(** X19.  The server URL is the [--server] argument when it is given and
    not empty, else the environment variable when it is set and not empty;
    without either the program exits with the message that says so.  A URL
    that is returned is never empty. *)
Theorem server_url_resolution (explicit environ : option string) :
  match resolve_server_url explicit environ with
  | Done url =>
      url <> ""
      /\ (explicit = Some url
          \/ ((explicit = None \/ explicit = Some "") /\ environ = Some url))
  | SystemExit arg =>
      arg = ExitText no_server_message
      /\ (explicit = None \/ explicit = Some "")
      /\ (environ = None \/ environ = Some "")
  | Uncaught _ | NoResult => False
  end.
Proof.
  unfold resolve_server_url, str_or.
  destruct explicit as [[| a r] |]; destruct environ as [[| b s] |];
    cbn; repeat split; auto; discriminate.
Qed.

(** X20.  A question given as argument, when not empty, is used as it is
    and the terminal is left alone.  Otherwise the prompt is written and one
    line is read: whatever was typed is the question, an empty line too; at
    end of input the program exits with a message. *)
Theorem question_from_argument_or_terminal
  (default : option string) (c : console) :
  (forall q : string,
      default = Some q -> q <> "" -> prompt_question default c = (Done q, c))
  /\ (default = None \/ default = Some "" ->
      forall (line : string) (later : list string),
        stdin c = line :: later ->
        prompt_question default c =
          (Done line,
           mkConsole later (stdout c ++ [question_prompt]) (stderr c)))
  /\ (default = None \/ default = Some "" ->
      stdin c = [] ->
      prompt_question default c =
        (SystemExit (ExitText no_question_message),
         mkConsole [] (stdout c ++ [question_prompt]) (stderr c))).
Proof.
  unfold prompt_question, input. repeat split.
  - intros q -> Hq. destruct q; [contradiction | reflexivity].
  - intros [-> | ->] line later ->; reflexivity.
  - intros [-> | ->] ->; reflexivity.
Qed.

Section MainProgram.

Context {Py : Python}.

Variable urlparse : string -> outcome ParseResult.

(** X21.  Without a server URL the program exits before it asks for a
    question and before it touches the network: terminal and world are as
    they were. *)
Theorem main_needs_a_server
  (args : arguments) (environ : option string) (w : world) (c : console) :
  arg_server args = None \/ arg_server args = Some "" ->
  environ = None \/ environ = Some "" ->
  main urlparse args environ w c =
    (SystemExit (ExitText no_server_message), w, c).
Proof.
  intros [Hs | Hs] [He | He]; unfold main, resolve_server_url, str_or;
    now rewrite Hs, He.
Qed.

(** X22.  At end of input on the prompt the program exits with its message
    once the prompt is written; nothing is connected and nothing is sent. *)
Theorem main_exits_at_end_of_input
  (args : arguments) (environ : option string) (w : world) (c : console)
  (url : string) :
  resolve_server_url (arg_server args) environ = Done url ->
  arg_question args = None \/ arg_question args = Some "" ->
  stdin c = [] ->
  main urlparse args environ w c =
    (SystemExit (ExitText no_question_message), w,
     mkConsole [] (stdout c ++ [question_prompt]) (stderr c)).
Proof.
  intros Hurl Hq Hin. unfold main. rewrite Hurl.
  unfold prompt_question, input. rewrite Hin.
  now destruct Hq as [-> | ->].
Qed.

(** X23.  With a URL whose scheme is not one of the four, the program
    prints its banner, reports the [ValueError] on standard error and exits
    with status 1; it prints no message and opens nothing. *)
Theorem main_reports_unsupported_scheme
  (args : arguments) (environ : option string) (w : world) (c : console)
  (url question : string) (parsed : ParseResult) :
  resolve_server_url (arg_server args) environ = Done url ->
  arg_question args = Some question -> question <> "" ->
  urlparse url = Return parsed ->
  scheme parsed <> "ws" -> scheme parsed <> "wss" ->
  scheme parsed <> "http" -> scheme parsed <> "https" ->
  main urlparse args environ w c =
    (SystemExit (ExitCode 1), fresh_generator w,
     report (ValueError ("Unsupported AG_UI_SERVER scheme: " +++ scheme parsed))
       (print ("Conectando a " +++ url +++ "..." +++ newline) c)).
Proof.
  intros Hurl Hq Hne Hparse Hws Hwss Hhttp Hhttps. unfold main.
  rewrite Hurl. unfold prompt_question. rewrite Hq.
  destruct question as [| a r]; [contradiction |].
  unfold client_stream. rewrite Hparse. unfold stream.
  apply String.eqb_neq in Hws, Hwss, Hhttp, Hhttps.
  rewrite Hws, Hwss, Hhttp, Hhttps. reflexivity.
Qed.

(** X24.  Every message the stream yields is printed, one line each, in
    the order received, after the banner; when the stream then fails the
    messages received before the failure have been printed, the exception
    is reported and the status is 1. *)
Theorem main_prints_every_message
  (args : arguments) (environ : option string) (w : world) (c : console)
  (url question : string) :
  resolve_server_url (arg_server args) environ = Done url ->
  arg_question args = Some question -> question <> "" ->
  let run := client_stream urlparse url question (fresh_generator w) in
  let result := main urlparse args environ w c in
  stdout (snd result) =
    stdout c ++ ("Conectando a " +++ url +++ "..." +++ newline +++ newline)
             :: map (fun m => text m +++ newline) (yielded (snd run))
  /\ snd (fst result) = snd run
  /\ (fst run = Return tt ->
      fst (fst result) = Done tt /\ stderr (snd result) = stderr c)
  /\ (forall e : exn, fst run = Raise e -> e <> GeneratorExit ->
      fst (fst result) = SystemExit (ExitCode 1)
      /\ stderr (snd result) = stderr c ++ [e]).
Proof.
  intros Hurl Hq Hne run result. unfold result, main.
  rewrite Hurl. unfold prompt_question. rewrite Hq.
  destruct question as [| a r]; [contradiction |].
  fold run. destruct run as [o w'] eqn:Erun. cbn [fst snd].
  set (c2 := print _ c).
  assert (Hout : forall (ms : list AgUIMessage) (k : console),
             stdout (fold_left (fun k m => print (text m) k) ms k)
             = stdout k ++ map (fun m => text m +++ newline) ms
             /\ stderr (fold_left (fun k m => print (text m) k) ms k)
                = stderr k).
  { induction ms as [| m ms IH]; intros k; cbn [fold_left map].
    - now rewrite app_nil_r.
    - destruct (IH (print (text m) k)) as [E1 E2]. rewrite E1, E2.
      cbn [stdout stderr print]. now rewrite <- app_assoc. }
  destruct (Hout (yielded w') c2) as [E1 E2].
  assert (Hbanner : stdout c2 ++ map (fun m => text m +++ newline) (yielded w')
                    = stdout c ++ ("Conectando a " +++ url +++ "..."
                                   +++ newline +++ newline)
                        :: map (fun m => text m +++ newline) (yielded w')).
  { unfold c2. cbn [stdout print]. rewrite <- app_assoc.
    cbn [app]. rewrite !append_assoc. reflexivity. }
  assert (Herr : stderr c2 = stderr c) by reflexivity.
  destruct o as [[] | e |]; cbn [fst snd].
  - split; [rewrite E1; exact Hbanner |]. split; [reflexivity |].
    split; [intros _; split; [reflexivity | now rewrite E2] |].
    intros e He. discriminate.
  - destruct e; cbn [fst snd stdout stderr report];
      (split; [rewrite E1; exact Hbanner |]); (split; [reflexivity |]);
      (split; [intros He; discriminate |]);
      intros e' He' Hg; injection He'; intros; subst e'; try congruence;
      (split; [reflexivity | now rewrite E2, Herr]).
  - split; [rewrite E1; exact Hbanner |]. split; [reflexivity |].
    split; [intros He; discriminate | intros e He; discriminate].
Qed.

End MainProgram.

(** ** The further properties at work *)

Section FurtherExamples.

#[local] Existing Instance Fragment.runtime.

Lemma sent_frame_decodes_witness :
  exists (frame : bytes) (w' : world),
    _send_websocket_frame 1 [104; 105] true (Fragment.calm []) = (Return tt, w')
    /\ log w' = log (Fragment.calm []) ++ [EvSend frame]
    /\ yielded w' = yielded (Fragment.calm [])
    /\ forall (r : world) (rest : bytes),
         inbound r = frame ++ rest ->
         recv_frame r = (Return (Z.land 1 0x0F, [104; 105]),
                         set_inbound rest r).
Proof.
  apply (sent_frame_decodes 1 [104; 105] true (Fragment.calm []));
    reflexivity.
Defined.

Lemma recv_exact_returns_exactly_witness :
  _recv_exact (len [1; 2; 3]) (Fragment.calm [1; 2; 3; 4]) =
  (Return [1; 2; 3], set_inbound [4] (Fragment.calm [1; 2; 3; 4])).
Proof.
  apply (recv_exact_returns_exactly [1; 2; 3] [4] (Fragment.calm [1; 2; 3; 4])).
  reflexivity.
Defined.

Lemma recv_exact_short_stream_witness :
  _recv_exact 4 (Fragment.calm [1; 2]) =
  (Raise (ConnectionError "Socket connection closed unexpectedly"),
   set_inbound [] (Fragment.calm [1; 2])).
Proof.
  apply (recv_exact_short_stream 4 (Fragment.calm [1; 2])). reflexivity.
Defined.

Lemma headers_stop_at_blank_line_witness :
  _read_http_response_headers (Fragment.calm (Fragment.switching ++ [136; 0]))
  = (Return (decode Fragment.switching),
     set_inbound [136; 0] (Fragment.calm (Fragment.switching ++ [136; 0]))).
Proof.
  apply (headers_stop_at_blank_line Fragment.switching [136; 0]
           (Fragment.calm (Fragment.switching ++ [136; 0]))).
  - reflexivity.
  - reflexivity.
  - intros k Hk.
    repeat (destruct k as [| k]; [reflexivity |]).
    exfalso. vm_compute in Hk. lia.
Defined.

Lemma headers_cut_short_witness :
  _read_http_response_headers (Fragment.calm [72; 84; 84; 80]) =
  (Return (decode [72; 84; 84; 80]), set_inbound [] (Fragment.calm [72; 84; 84; 80])).
Proof.
  apply (headers_cut_short (Fragment.calm [72; 84; 84; 80])). reflexivity.
Defined.


Lemma refused_upgrade_closes_socket_witness :
  exists w' : world,
    _stream_websocket Fragment.endpoint "hi"
      (Fragment.calm (Fragment.refusal ++ [136; 0])) =
      (Raise (ConnectionError "WebSocket upgrade failed"), w')
    /\ log w' = log (Fragment.calm (Fragment.refusal ++ [136; 0]))
                ++ opening Fragment.endpoint
                     (Fragment.calm (Fragment.refusal ++ [136; 0]))
                ++ [EvClose]
    /\ yielded w' = yielded (Fragment.calm (Fragment.refusal ++ [136; 0]))
    /\ inbound w' = [136; 0].
Proof.
  apply (refused_upgrade_closes_socket Fragment.endpoint "hi"
           (Fragment.calm (Fragment.refusal ++ [136; 0]))
           Fragment.refusal [136; 0]);
    try reflexivity; try discriminate.
  intros k Hk.
  repeat (destruct k as [| k]; [reflexivity |]).
  exfalso. vm_compute in Hk. lia.
Defined.

Lemma accepted_upgrade_sends_question_witness :
  exists (second : Z) (ext : bytes) (w' : world),
    let w := Fragment.calm (Fragment.switching ++ [136; 0]) in
    let payload := encode (question_payload true "hi") in
    let key := random_bytes 4 (set_drawn (drawn w + 16)%nat w) in
    let frame := [0x81; second] ++ ext ++ key ++ xor_mask key payload in
    _stream_websocket Fragment.endpoint "hi" w
    = try_finally ws_receive sock_close w'
    /\ log w' = log w ++ opening Fragment.endpoint w ++ [EvSend frame]
    /\ Z.land second 0x80 = 0x80
    /\ ((len payload < 126 /\ second = Z.lor 0x80 (len payload) /\ ext = [])
        \/ (126 <= len payload < 2 ^ 16 /\ second = Z.lor 0x80 126
            /\ ext = big_endian 2 (len payload))
        \/ (2 ^ 16 <= len payload /\ second = Z.lor 0x80 127
            /\ ext = big_endian 8 (len payload)))
    /\ yielded w' = yielded w
    /\ inbound w' = [136; 0]
    /\ forall (r : world) (rest' : bytes),
         inbound r = frame ++ rest' ->
         recv_frame r = (Return (0x1, payload), set_inbound rest' r).
Proof.
  apply (accepted_upgrade_sends_question Fragment.endpoint "hi"
           (Fragment.calm (Fragment.switching ++ [136; 0]))
           Fragment.switching [136; 0]);
    try reflexivity; try discriminate.
  intros k Hk.
  repeat (destruct k as [| k]; [reflexivity |]).
  exfalso. vm_compute in Hk. lia.
Defined.

Lemma early_close_by_caller_witness :
  try_finally ws_receive sock_close (Fragment.one_message [129; 2; 104; 105])
  = (Raise GeneratorExit,
     log_event EvClose
       (push_message (mkMessage "hi" (JString "hi")) (Some 0%nat)
          (set_inbound [] (Fragment.one_message [129; 2; 104; 105])))).
Proof.
  apply (early_close_by_caller (Fragment.one_message [129; 2; 104; 105])
           (set_inbound [] (Fragment.one_message [129; 2; 104; 105]))
           [104; 105] (mkMessage "hi" (JString "hi")));
    reflexivity.
Defined.

Lemma other_frames_are_dropped_witness :
  ws_receive (Fragment.calm [130; 1; 7; 136; 0])
  = ws_receive (set_inbound [136; 0] (Fragment.calm [130; 1; 7; 136; 0]))
  /\ log (set_inbound [136; 0] (Fragment.calm [130; 1; 7; 136; 0]))
     = log (Fragment.calm [130; 1; 7; 136; 0])
  /\ yielded (set_inbound [136; 0] (Fragment.calm [130; 1; 7; 136; 0]))
     = yielded (Fragment.calm [130; 1; 7; 136; 0]).
Proof.
  apply (other_frames_are_dropped (Fragment.calm [130; 1; 7; 136; 0])
           (set_inbound [136; 0] (Fragment.calm [130; 1; 7; 136; 0]))
           2 [7]);
    try reflexivity; discriminate.
Defined.

Lemma stream_end_without_close_frame_witness :
  ws_receive (Fragment.calm [129]) =
  (Raise (ConnectionError "Socket connection closed unexpectedly"),
   set_inbound [] (Fragment.calm [129])).
Proof.
  apply (stream_end_without_close_frame (Fragment.calm [129])). reflexivity.
Defined.

Lemma text_frame_is_yielded_witness :
  ws_receive (Fragment.calm [129; 2; 104; 105; 136; 0])
  = ws_receive
      (push_message (mkMessage "hi" (JString "hi")) None
         (set_inbound [136; 0] (Fragment.calm [129; 2; 104; 105; 136; 0]))).
Proof.
  apply (text_frame_is_yielded (Fragment.calm [129; 2; 104; 105; 136; 0])
           (set_inbound [136; 0] (Fragment.calm [129; 2; 104; 105; 136; 0]))
           [104; 105] (mkMessage "hi" (JString "hi")));
    reflexivity.
Defined.

Lemma connects_to_the_scheme_default_port_witness :
  exists more : list event,
    log (snd (_stream_websocket Fragment.endpoint "hi"
                (Fragment.calm Fragment.switching))) =
    log (Fragment.calm Fragment.switching) ++ EvConnect "host" 80 :: more.
Proof.
  apply (connects_to_the_scheme_default_port Fragment.endpoint "hi"
           (Fragment.calm Fragment.switching) 80).
  - reflexivity.
  - right. split; [left; reflexivity |].
    right. split; [discriminate | reflexivity].
Defined.

Lemma http_response_is_always_closed_witness :
  fst (_stream_http "http://host/ask" "hi" Fragment.example_response) <> Stuck
  /\ log (snd (_stream_http "http://host/ask" "hi" Fragment.example_response))
     = log Fragment.example_response
       ++ [EvUrlopen "http://host/ask" (encode (question_payload false "hi"));
           EvHttpClose].
Proof.
  apply (http_response_is_always_closed "http://host/ask" "hi"
           Fragment.example_response
           [bytes_of_string (sse_line "hello"); [];
            bytes_of_string (sse_line "world")]).
  reflexivity.
Defined.

Lemma http_one_message_per_content_line_witness :
  exists new : list AgUIMessage,
    yielded (snd (_stream_http "http://host/ask" "hi"
                    Fragment.example_response))
    = yielded Fragment.example_response ++ new
    /\ (List.length new
        <= List.length (content_lines
                          [bytes_of_string (sse_line "hello"); [];
                           bytes_of_string (sse_line "world")]))%nat
    /\ (fst (_stream_http "http://host/ask" "hi" Fragment.example_response)
        = Return tt ->
        List.length new
        = List.length (content_lines
                         [bytes_of_string (sse_line "hello"); [];
                          bytes_of_string (sse_line "world")])).
Proof.
  apply (http_one_message_per_content_line "http://host/ask" "hi"
           Fragment.example_response
           [bytes_of_string (sse_line "hello"); [];
            bytes_of_string (sse_line "world")]).
  reflexivity.
Defined.

Lemma parsed_value_is_kept_witness :
  exists m : AgUIMessage,
    _normalize_message "[1, 2]" = Return m
    /\ raw m = JArray [JInt 1; JInt 2]
    /\ text m = str (JArray [JInt 1; JInt 2]).
Proof.
  apply (parsed_value_is_kept "[1, 2]" (JArray [JInt 1; JInt 2])).
  reflexivity.
Defined.

Lemma text_of_plain_fields_witness :
  (forall speaker : string,
      first_truthy speaker_keys
        [("user", JString "bot"); ("text", JString "hi")]
      = Some (JString speaker) ->
      text (normalize_value
              (JObject [("user", JString "bot"); ("text", JString "hi")]))
      = speaker +++ ": " +++ "hi")
  /\ (first_truthy speaker_keys
        [("user", JString "bot"); ("text", JString "hi")] = None ->
      text (normalize_value
              (JObject [("user", JString "bot"); ("text", JString "hi")]))
      = "hi").
Proof.
  apply (text_of_plain_fields
           [("user", JString "bot"); ("text", JString "hi")] "hi").
  reflexivity.
Defined.

Lemma main_needs_a_server_witness :
  main (Fragment.parse_as Fragment.endpoint) (mkArguments (Some "hi") None 10)
       None (Fragment.calm []) (mkConsole [] [] [])
  = (SystemExit (ExitText no_server_message), Fragment.calm [],
     mkConsole [] [] []).
Proof.
  apply (main_needs_a_server (Fragment.parse_as Fragment.endpoint)
           (mkArguments (Some "hi") None 10) None (Fragment.calm [])
           (mkConsole [] [] []));
    left; reflexivity.
Defined.

Lemma main_exits_at_end_of_input_witness :
  main (Fragment.parse_as Fragment.endpoint)
       (mkArguments None (Some "ws://host/chat") 10)
       None (Fragment.calm []) (mkConsole [] [] [])
  = (SystemExit (ExitText no_question_message), Fragment.calm [],
     mkConsole [] [question_prompt] []).
Proof.
  apply (main_exits_at_end_of_input (Fragment.parse_as Fragment.endpoint)
           (mkArguments None (Some "ws://host/chat") 10) None
           (Fragment.calm []) (mkConsole [] [] []) "ws://host/chat").
  - reflexivity.
  - left. reflexivity.
  - reflexivity.
Defined.

Lemma main_reports_unsupported_scheme_witness :
  main (Fragment.parse_as
          (mkParseResult "ftp" (Some "host") PortNone "" "" "ftp://host"))
       (mkArguments (Some "hi") (Some "ftp://host") 10)
       None (Fragment.calm []) (mkConsole [] [] [])
  = (SystemExit (ExitCode 1), fresh_generator (Fragment.calm []),
     report (ValueError "Unsupported AG_UI_SERVER scheme: ftp")
       (print ("Conectando a ftp://host..." +++ newline)
          (mkConsole [] [] []))).
Proof.
  apply (main_reports_unsupported_scheme
           (Fragment.parse_as
              (mkParseResult "ftp" (Some "host") PortNone "" "" "ftp://host"))
           (mkArguments (Some "hi") (Some "ftp://host") 10) None
           (Fragment.calm []) (mkConsole [] [] []) "ftp://host" "hi"
           (mkParseResult "ftp" (Some "host") PortNone "" "" "ftp://host"));
    try reflexivity; discriminate.
Defined.

Lemma main_prints_every_message_witness :
  let parse :=
    Fragment.parse_as
      (mkParseResult "http" (Some "host") PortNone "/ask" "" "http://host/ask") in
  let args := mkArguments (Some "hi") (Some "http://host/ask") 10 in
  let run :=
    client_stream parse "http://host/ask" "hi"
      (fresh_generator Fragment.example_response) in
  let result :=
    main parse args None Fragment.example_response (mkConsole [] [] []) in
  stdout (snd result) =
    [] ++ ("Conectando a " +++ "http://host/ask" +++ "..." +++ newline
           +++ newline)
       :: map (fun m => text m +++ newline) (yielded (snd run))
  /\ snd (fst result) = snd run
  /\ (fst run = Return tt ->
      fst (fst result) = Done tt /\ stderr (snd result) = [])
  /\ (forall e : exn, fst run = Raise e -> e <> GeneratorExit ->
      fst (fst result) = SystemExit (ExitCode 1)
      /\ stderr (snd result) = [] ++ [e]).
Proof.
  intros parse args.
  apply (main_prints_every_message parse args None Fragment.example_response
           (mkConsole [] [] []) "http://host/ask" "hi");
    try reflexivity; discriminate.
Defined.

End FurtherExamples.
